(** * The two demonstration programs of parsentry's [example/] directory

    [example/c-vulnerable-app/main.c] and
    [example/cpp-vulnerable-app/main.cpp], embedded as Rocq functions.

    Conventions of the embedding.
    - A C string ([char *]) is the Rocq [string] of its characters before
      the terminating NUL; [cstring s] says that no NUL occurs inside.
      A [std::string] is a Rocq [string] that may hold NUL; where the
      code takes its [c_str()], or reads a char array as a C string, the
      model takes [c_str].
    - Integers are [Z]; conversions to a fixed width are written out with
      [Z.modulo].  The data model is LP64: [int] and [unsigned int] have
      32 bits, [size_t] and [unsigned long long] have 64 bits,
      [sizeof(char) = 1].
    - Effects are a trace of [event]s; a computation ends in a value or in
      a [fault] (undefined behaviour of C, or a C++ exception that no
      handler of the program catches). *)

From Stdlib Require Import ZArith List String Ascii Lia Bool.
From Stdlib Require Import DecimalString DecimalPos DecimalN.
Import ListNotations.

Open Scope string_scope.
Open Scope Z_scope.

Set Implicit Arguments.

(** ** Integer types of the platform *)

Definition INT_MIN : Z := - 2 ^ 31.
Definition INT_MAX : Z := 2 ^ 31 - 1.
Definition UINT_MOD : Z := 2 ^ 32.
Definition SIZE_MOD : Z := 2 ^ 64.
Definition ULLONG_MAX : Z := 2 ^ 64 - 1.
Definition sizeof_char : Z := 1.

(** Conversion of an integer value to [unsigned int] and to [size_t]. *)
Definition to_uint (v : Z) : Z := v mod UINT_MOD.
Definition to_size_t (v : Z) : Z := v mod SIZE_MOD.

Definition in_int (v : Z) : Prop := INT_MIN <= v <= INT_MAX.

(** ** Runs: traces, faults and the monad *)

Inductive event : Type :=
| Stdout (s : string)            (* bytes written to standard output *)
| System (cmdline : string)      (* system(cmdline), that is sh -c cmdline *)
| Open (path : string)           (* fopen(path, "r") or std::ifstream(path) *)
| Close (path : string)
| Alloc (bytes : Z)              (* malloc(bytes) or new char[bytes] *)
| Release (bytes : Z).

Inductive exn : Type := invalid_argument | out_of_range | bad_alloc.

Inductive fault : Type :=
| OutOfBounds (capacity written : nat)  (* store past the end of a char array *)
| BadFormat (fmt : string)              (* conversion without its argument *)
| Unrepresentable (v : Z)               (* atoi result outside int *)
| Raise (e : exn)                       (* exception that reaches std::terminate *)
| OutOfFuel.

Inductive result (A : Type) : Type :=
| Done (a : A)
| Fault (f : fault).

Arguments Fault {A} f.

Record run (A : Type) : Type := Run { trace : list event; outcome : result A }.

Definition ret {A} (a : A) : run A := Run [] (Done a).
Definition fail {A} (f : fault) : run A := Run [] (Fault f).
Definition emit (e : event) : run unit := Run [e] (Done tt).

Definition bind {A B} (c : run A) (k : A -> run B) : run B :=
  match outcome c with
  | Done a => Run (trace c ++ trace (k a)) (outcome (k a))
  | Fault f => Run (trace c) (Fault f)
  end.

Notation "x <- c ;; k" := (bind c (fun x => k))
  (at level 61, c at next level, right associativity).
Notation "c ;; k" := (bind c (fun _ => k))
  (at level 61, right associativity).

(** Everything the run wrote to standard output, in order. *)
Fixpoint stdout_of (t : list event) : string :=
  match t with
  | [] => ""
  | Stdout s :: t' => s ++ stdout_of t'
  | _ :: t' => stdout_of t'
  end.

(** The command lines handed to [system], in order. *)
Fixpoint systems_of (t : list event) : list string :=
  match t with
  | [] => []
  | System c :: t' => c :: systems_of t'
  | _ :: t' => systems_of t'
  end.

(** What the programs do not decide themselves: the files that exist
    (path as given to the open call, with its content) and whether the
    allocator serves a request. *)
Record env : Type := Env {
  fs : string -> option string;
  heap_ok : Z -> bool
}.

(** ** Runs over a program state

    For the code that keeps pointers and global variables: a run starts
    from a state and ends in a value with the new state, or in a
    [hazard]. *)

Inductive hazard : Type :=
| Plain (f : fault)
| UseAfterFree (p : nat)   (* access to a block after its release *)
| DoubleFree (p : nat)     (* release of a block that is not live *)
| NullPointer.             (* store through a null pointer *)

Inductive sresult (S A : Type) : Type :=
| Ok (a : A) (s : S)
| Hazard (h : hazard).

Arguments Ok {S A} a s.
Arguments Hazard {S A} h.

Record srun (S A : Type) : Type :=
  SRun { strace : list event; sout : sresult S A }.

Definition prog (S A : Type) : Type := S -> srun S A.

Definition sret {S A} (a : A) : prog S A := fun s => SRun [] (Ok a s).
Definition shazard {S A} (h : hazard) : prog S A := fun _ => SRun [] (Hazard h).

Definition sbind {S A B} (c : prog S A) (k : A -> prog S B) : prog S B :=
  fun s =>
    match sout (c s) with
    | Ok a s' => SRun (strace (c s) ++ strace (k a s')) (sout (k a s'))
    | Hazard h => SRun (strace (c s)) (Hazard h)
    end.

Definition sget {S} : prog S S := fun s => SRun [] (Ok s s).
Definition sput {S} (s' : S) : prog S unit := fun _ => SRun [] (Ok tt s').

(** A run that does not touch the state. *)
Definition lift {S A} (r : run A) : prog S A :=
  fun s =>
    SRun (trace r)
         (match outcome r with
          | Done a => Ok a s
          | Fault f => Hazard (Plain f)
          end).

Notation "x <~ c ;; k" := (sbind c (fun x => k))
  (at level 61, c at next level, right associativity).
Notation "c ;;; k" := (sbind c (fun _ => k))
  (at level 61, right associativity).

(** The blocks handed out by the allocator.  A pointer is the number of
    its block; [live] lists the blocks not yet released with their sizes
    in bytes.  What the blocks hold is not recorded: the programs store
    to them and never read them back. *)
Module Mem.

Record heap : Type := Heap { next : nat; live : list (nat * nat) }.

Definition empty : heap := Heap O [].

Fixpoint size_of (p : nat) (l : list (nat * nat)) : option nat :=
  match l with
  | [] => None
  | (q, n) :: l' => if Nat.eqb p q then Some n else size_of p l'
  end.

Definition release (p : nat) (l : list (nat * nat)) : list (nat * nat) :=
  filter (fun b => negb (Nat.eqb p (fst b))) l.


End Mem.

(** ** Characters and strings *)

Definition NUL : ascii := "000"%char.
Definition LF : ascii := "010"%char.
Definition byte (c : ascii) : Z := Z.of_nat (nat_of_ascii c).
Definition len (s : string) : nat := String.length s.

Fixpoint chars (s : string) : list ascii :=
  match s with
  | EmptyString => []
  | String c s' => c :: chars s'
  end.

Definition cstring (s : string) : Prop := ~ In NUL (chars s).

(** [p + n] for a [char *] p with at least [n] characters. *)
Fixpoint skip (n : nat) (s : string) : string :=
  match n, s with
  | O, _ => s
  | S n', String _ s' => skip n' s'
  | S _, EmptyString => EmptyString
  end.

Fixpoint take (n : nat) (s : string) : string :=
  match n, s with
  | S n', String c s' => String c (take n' s')
  | _, _ => EmptyString
  end.

(** Cut [s] at every occurrence of [sep]; [cur] is the piece so far. *)
Fixpoint split_on (sep : ascii) (s : string) (cur : string) : list string :=
  match s with
  | EmptyString => [cur]
  | String c s' =>
      if Ascii.eqb c sep then cur :: split_on sep s' EmptyString
      else split_on sep s' (cur ++ String c EmptyString)
  end.

(** The pieces of a text put together again. *)
Fixpoint join (pieces : list string) : string :=
  match pieces with
  | [] => EmptyString
  | p :: ps => p ++ join ps
  end.

(** [n] copies of [c]. *)
Fixpoint replicate (n : nat) (c : ascii) : string :=
  match n with
  | O => EmptyString
  | S n' => String c (replicate n' c)
  end.

Definition decimal (v : Z) : string :=
  NilEmpty.string_of_uint (N.to_uint (Z.to_N v)).

(** ** The C library, as far as the programs use it *)

Module Libc.

(** The C string that a char array or a std::string holds ([c_str()]): the
    characters before the first NUL. *)
Fixpoint c_str (bytes : string) : string :=
  match bytes with
  | EmptyString => EmptyString
  | String c rest => if Ascii.eqb c NUL then EmptyString else String c (c_str rest)
  end.

(** strcmp: the difference of the first pair of characters that differ,
    the terminator counting as character 0. *)
Fixpoint strcmp (a b : string) : Z :=
  match a, b with
  | EmptyString, EmptyString => 0
  | EmptyString, String d _ => - byte d
  | String c _, EmptyString => byte c
  | String c a', String d b' =>
      if Ascii.eqb c d then strcmp a' b' else byte c - byte d
  end.

(** strncmp: as strcmp, over at most [n] characters. *)
Fixpoint strncmp (a b : string) (n : nat) : Z :=
  match n with
  | O => 0
  | S n' =>
      match a, b with
      | EmptyString, EmptyString => 0
      | EmptyString, String d _ => - byte d
      | String c _, EmptyString => byte c
      | String c a', String d b' =>
          if Ascii.eqb c d then strncmp a' b' n' else byte c - byte d
      end
  end.

(** strcspn(s, "\n"): the length of the initial segment without a
    newline; main.c stores 0 there, which cuts the string. *)
Fixpoint strcspn_lf (s : string) : nat :=
  match s with
  | EmptyString => O
  | String c s' => if Ascii.eqb c LF then O else S (strcspn_lf s')
  end.

(** strcpy into a char array of [cap] bytes: [strlen src + 1] bytes are
    stored, whatever [cap] is. *)
Definition strcpy_stores (src : string) : nat := S (len src).

Definition strcpy (cap : nat) (src : string) : run string :=
  if (strcpy_stores src <=? cap)%nat then ret src
  else fail (OutOfBounds cap (strcpy_stores src)).

(** printf's arguments and conversions.  Modelled: [%%], [%s], [%u] and
    ordinary characters.  A conversion whose argument is missing or of
    another type is undefined behaviour; so is a lone [%]. *)
Inductive arg : Type := AStr (s : string) | AUInt (n : Z).

Fixpoint format (fmt : string) (args : list arg) : option string :=
  match fmt with
  | EmptyString => Some EmptyString
  | String c rest =>
      if Ascii.eqb c "%" then
        match rest with
        | String d rest' =>
            if Ascii.eqb d "%" then
              option_map (String "%") (format rest' args)
            else if Ascii.eqb d "s" then
              match args with
              | AStr s :: args' => option_map (append s) (format rest' args')
              | _ => None
              end
            else if Ascii.eqb d "u" then
              match args with
              | AUInt n :: args' =>
                  option_map (append (decimal n)) (format rest' args')
              | _ => None
              end
            else None
        | EmptyString => None
        end
      else option_map (String c) (format rest args)
  end.

Definition printf (fmt : string) (args : list arg) : run unit :=
  match format fmt args with
  | Some s => emit (Stdout s)
  | None => fail (BadFormat fmt)
  end.

(** sprintf into a char array of [cap] bytes. *)
Definition sprintf (cap : nat) (fmt : string) (args : list arg) : run string :=
  match format fmt args with
  | Some s =>
      if (S (len s) <=? cap)%nat then ret s
      else fail (OutOfBounds cap (S (len s)))
  | None => fail (BadFormat fmt)
  end.

Definition system (cmdline : string) : run unit := emit (System cmdline).

(** malloc: the request is recorded; NULL ([None]) when the allocator
    refuses. *)
Definition malloc (e : env) (bytes : Z) : run (option Z) :=
  emit (Alloc bytes) ;;
  ret (if heap_ok e bytes then Some bytes else None).

Definition free (bytes : Z) : run unit := emit (Release bytes).

(** fgets(buf, n, stream) on the unread rest of a stream: at most
    [n - 1] characters, up to and including the first newline; NULL
    ([None]) at end of file.  The result is the line and the new rest. *)
Fixpoint fgets_take (room : nat) (s : string) : string * string :=
  match room, s with
  | S r, String c s' =>
      if Ascii.eqb c LF then (String c EmptyString, s')
      else let (l, rest) := fgets_take r s' in (String c l, rest)
  | _, _ => (EmptyString, s)
  end.

Definition fgets (n : nat) (stream : string) : option (string * string) :=
  match stream with
  | EmptyString => None
  | _ => Some (fgets_take (n - 1) stream)
  end.

(** Numbers in text: isspace, the decimal digits, and the digit run at
    the head of a string with its value. *)
Definition isspace (c : ascii) : bool :=
  let n := nat_of_ascii c in
  (n =? 32)%nat || ((9 <=? n)%nat && (n <=? 13)%nat).

Definition digit (c : ascii) : option Z :=
  let n := nat_of_ascii c in
  if ((48 <=? n)%nat && (n <=? 57)%nat) then Some (Z.of_nat n - 48) else None.

Fixpoint skip_space (s : string) : string :=
  match s with
  | String c s' => if isspace c then skip_space s' else s
  | EmptyString => s
  end.

(** [digits acc s]: the value of the digit run at the head of [s],
    continuing from [acc], and how many digits were read. *)
Fixpoint digits (acc : Z) (s : string) : Z * nat :=
  match s with
  | String c s' =>
      match digit c with
      | Some d => let (v, k) := digits (10 * acc + d) s' in (v, S k)
      | None => (acc, O)
      end
  | EmptyString => (acc, O)
  end.

(** The subject sequence of strtol and strtoull in base 10: white space,
    an optional sign, digits.  [None] when there is no digit. *)
Definition subject (s : string) : option (bool * Z) :=
  let s1 := skip_space s in
  let (neg, s2) :=
    match s1 with
    | String c s' =>
        if Ascii.eqb c "-" then (true, s')
        else if Ascii.eqb c "+" then (false, s')
        else (false, s1)
    | EmptyString => (false, s1)
    end in
  let (v, k) := digits 0 s2 in
  match k with
  | O => None
  | S _ => Some (neg, v)
  end.

(** atoi: 0 when there is no number; undefined when the value is not
    representable in int. *)
Definition atoi (s : string) : run Z :=
  match subject s with
  | None => ret 0
  | Some (neg, m) =>
      let v := if neg then - m else m in
      if (INT_MIN <=? v) && (v <=? INT_MAX) then ret v
      else fail (Unrepresentable v)
  end.

(** recv(fd, buf, n, 0) into a char array of [cap] bytes.  [incoming] is
    what the peer delivers to this call: [None] for an error (-1), else
    the bytes at hand, of which at most [n] are taken.  The result is the
    bytes stored, whose number is the return value. *)
Definition recv (cap n : nat) (incoming : option string)
  : run (option string) :=
  match incoming with
  | None => ret None
  | Some data =>
      let got := take n data in
      if (len got <=? cap)%nat then ret (Some got)
      else fail (OutOfBounds cap (len got))
  end.

(** [buf[i] = c] for a char array of [cap] bytes. *)
Definition store_at (cap i : nat) : run unit :=
  if (i <? cap)%nat then ret tt else fail (OutOfBounds cap (S i)).

End Libc.

(** ** example/c-vulnerable-app/main.c *)

Module CApp.
Import Libc.

Definition BUFFER_SIZE : nat := 1024.
Definition MAX_COMMAND_SIZE : nat := 256.

(** The global configuration variables. *)
Record globals : Type := Globals {
  admin_password : string;
  debug_mode : Z
}.

Definition initial_globals : globals :=
  {| admin_password := "admin123"; debug_mode := 0 |}.

(** [char buffer[100]; strcpy(buffer, input); printf("Copied: %s\n", buffer);] *)
Definition unsafe_string_copy (input : string) : run unit :=
  buffer <- strcpy 100 input ;;
  printf ("Copied: %s" ++ String LF "") [AStr buffer].

(** [printf("Log: "); printf(user_input); printf("\n");] *)
Definition log_message (user_input : string) : run unit :=
  printf "Log: " [] ;;
  printf user_input [] ;;
  printf (String LF "") [].

(** [sprintf(full_command, "echo %s", command); system(full_command);] *)
Definition execute_system_command (command : string) : run unit :=
  full_command <- sprintf MAX_COMMAND_SIZE "echo %s" [AStr command] ;;
  system full_command.

(** [allocate_memory(unsigned int size)]; the argument of malloc is the
    product in size_t. *)
Definition allocate_memory (e : env) (size : Z) : run unit :=
  if 0 <? size then
    buffer <- malloc e (to_size_t (size * sizeof_char)) ;;
    match buffer with
    | None => printf ("Memory allocation failed" ++ String LF "") []
    | Some p =>
        printf ("Allocated %u bytes" ++ String LF "") [AUInt size] ;;
        free p
    end
  else ret tt.

(** [authenticate_user]: && evaluates the second strcmp only when the
    first returned 0. *)
Definition authenticate_user (g : globals) (username password : string) : Z :=
  if (strcmp username "admin" =? 0) && (strcmp password (admin_password g) =? 0)
  then 1 else 0.

(** The while loop of [read_config_file] over the unread rest of the
    file: [char buffer[512]], one printf per fgets; [%s] prints the C
    string in the buffer, which ends at the first NUL that was read. *)
Fixpoint config_lines (fuel : nat) (stream : string) : run unit :=
  match fgets 512 stream with
  | None => ret tt
  | Some (buffer, rest) =>
      match fuel with
      | O => fail OutOfFuel
      | S fuel' =>
          printf "Config: %s" [AStr (c_str buffer)] ;;
          config_lines fuel' rest
      end
  end.

Definition read_config_file (e : env) (filename : string) : run unit :=
  emit (Open filename) ;;
  match fs e filename with
  | Some content =>
      config_lines (len content) content ;;
      emit (Close filename)
  | None => ret tt
  end.

(** main, the part on argv[1]. *)
Definition process_argument (arg1 : string) : run unit :=
  printf "Processing argument: " [] ;;
  printf arg1 [] ;;
  printf (String LF "") [] ;;
  if (100 <? len arg1)%nat then unsafe_string_copy arg1 else ret tt.

(** main, the part on the line in [input_buffer], the newline removed. *)
Definition process_line (e : env) (input_buffer : string) : run unit :=
  log_message input_buffer ;;
  unsafe_string_copy input_buffer ;;
  (if strncmp input_buffer "exec:" 5 =? 0
   then execute_system_command (skip 5 input_buffer) else ret tt) ;;
  (if strncmp input_buffer "alloc:" 6 =? 0
   then v <- atoi (skip 6 input_buffer) ;; allocate_memory e (to_uint v)
   else ret tt) ;;
  (if strncmp input_buffer "file:" 5 =? 0
   then read_config_file e (skip 5 input_buffer) else ret tt).

(** main, reading the line: [fgets(input_buffer, 1024, stdin)] and the
    newline cut off with strcspn.  From here on [input_buffer] is used as
    a C string: what was read after a NUL is not seen. *)
Definition interactive (e : env) (stdin : string) : run unit :=
  match fgets BUFFER_SIZE stdin with
  | Some (input_buffer, _) =>
      let line := c_str input_buffer in
      process_line e (take (strcspn_lf line) line)
  | None => ret tt
  end.

(** [handle_network_input]: [char buffer[256]], recv of up to 1024
    bytes, the terminator stored at [buffer[bytes_received]]. *)
Definition handle_network_input (incoming : option string) : run unit :=
  received <- recv 256 1024 incoming ;;
  match received with
  | Some bytes =>
      if (0 <? len bytes)%nat then
        store_at 256 (len bytes) ;;
        let buffer := c_str bytes in
        printf ("Received: %s" ++ String LF "") [AStr buffer] ;;
        if strncmp buffer "CMD:" 4 =? 0
        then execute_system_command (skip 4 buffer) else ret tt
      else ret tt
  | None => ret tt
  end.

(** The state of the program: the configuration variables, the pointer
    [global_buffer] (NULL is [None]), [shared_counter] and the heap. *)
Record state : Type := State {
  vars : globals;
  global_buffer : option nat;
  shared_counter : Z;
  mem : Mem.heap
}.

Definition initial_state : state :=
  {| vars := initial_globals; global_buffer := None;
     shared_counter := 0; mem := Mem.empty |}.


(** free(p): nothing for NULL. *)
Definition free_block (p : option nat) : prog state unit :=
  fun s =>
    match p with
    | None => SRun [] (Ok tt s)
    | Some b =>
        match Mem.size_of b (Mem.live (mem s)) with
        | Some n =>
            SRun [Release (Z.of_nat n)]
                 (Ok tt
                     {| vars := vars s; global_buffer := global_buffer s;
                        shared_counter := shared_counter s;
                        mem := Mem.Heap (Mem.next (mem s))
                                        (Mem.release b (Mem.live (mem s))) |})
        | None => SRun [] (Hazard (DoubleFree b))
        end
    end.

(** strcpy(p, src) for a pointer into the heap. *)
Definition strcpy_block (p : option nat) (src : string) : prog state unit :=
  fun s =>
    match p with
    | None => SRun [] (Hazard NullPointer)
    | Some b =>
        match Mem.size_of b (Mem.live (mem s)) with
        | Some n =>
            if (strcpy_stores src <=? n)%nat then SRun [] (Ok tt s)
            else SRun [] (Hazard (Plain (OutOfBounds n (strcpy_stores src))))
        | None => SRun [] (Hazard (UseAfterFree b))
        end
    end.

(** [free_global_buffer]: the pointer keeps its value. *)
Definition free_global_buffer : prog state unit :=
  s <~ sget ;; free_block (global_buffer s).

(** [use_global_buffer] *)
Definition use_global_buffer : prog state unit :=
  s <~ sget ;;
  match global_buffer s with
  | Some _ => strcpy_block (global_buffer s) "test"
  | None => sret tt
  end.

(** [increment_counter], one thread at a time: [shared_counter++] on an
    int, undefined at INT_MAX. *)
Definition increment_counter : prog state unit :=
  s <~ sget ;;
  if shared_counter s <? INT_MAX then
    sput {| vars := vars s; global_buffer := global_buffer s;
            shared_counter := shared_counter s + 1; mem := mem s |}
  else shazard (Plain (Unrepresentable (shared_counter s + 1))).

(** main, the part on the environment variable DEBUG. *)
Definition read_debug (debug_env : option string) : prog state unit :=
  match debug_env with
  | Some d =>
      v <~ lift (atoi d) ;;
      s <~ sget ;;
      sput {| vars := {| admin_password := admin_password (vars s);
                         debug_mode := v |};
              global_buffer := global_buffer s;
              shared_counter := shared_counter s; mem := mem s |} ;;;
      if v =? 0 then sret tt
      else lift (printf ("Debug mode enabled with value: %s" ++ String LF "")
                        [AStr d])
  | None => sret tt
  end.




End CApp.

(** ** example/cpp-vulnerable-app/main.cpp *)

Module CppApp.
Import Libc.

(** std::string members. *)

(** [s.find(q)]: the lowest position at which [q] occurs in [s], or npos
    ([None]). *)
Fixpoint find (s q : string) : option nat :=
  if prefix q s then Some O
  else match s with
       | EmptyString => None
       | String _ s' => option_map S (find s' q)
       end.

(** [s.substr(pos, n)] and [s.substr(pos)]: out_of_range when
    [pos > s.size()]. *)
Definition substr (s : string) (pos n : nat) : run string :=
  if (pos <=? len s)%nat then ret (take n (skip pos s))
  else fail (Raise out_of_range).

Definition substr_from (s : string) (pos : nat) : run string :=
  if (pos <=? len s)%nat then ret (skip pos s)
  else fail (Raise out_of_range).

(** std::stoull in base 10, on strtoull: invalid_argument when there is
    no number, out_of_range when the magnitude exceeds ULLONG_MAX, and a
    negative number negated in unsigned long long. *)
Definition stoull (s : string) : run Z :=
  match subject s with
  | None => fail (Raise invalid_argument)
  | Some (neg, m) =>
      if ULLONG_MAX <? m then fail (Raise out_of_range)
      else ret (if neg then (- m) mod SIZE_MOD else m)
  end.

(** [std::cout << ...]: one write per statement. *)
Definition cout (s : string) : run unit := emit (Stdout s).
Definition endl : string := String LF "".

(** new char[n]: bad_alloc when the allocator refuses. *)
Definition new_chars (e : env) (bytes : Z) : run Z :=
  emit (Alloc bytes) ;;
  if heap_ok e bytes then ret bytes else fail (Raise bad_alloc).

(** class VulnerableDatabase *)
Record VulnerableDatabase : Type := Database { users : list string }.

Definition addUser (db : VulnerableDatabase) (username : string)
  : VulnerableDatabase :=
  {| users := users db ++ [username] |}.

Definition sql_of (query : string) : string :=
  "SELECT * FROM users WHERE name = '" ++ query ++ "'".

(** The for loop of [searchUsers]; [results] is the vector so far. *)
Fixpoint search_loop (us : list string) (query : string) (results : list string)
  : list string :=
  match us with
  | [] => results
  | user :: us' =>
      search_loop us' query
        (match find user query with
         | Some _ => results ++ [user]
         | None => results
         end)
  end.

Definition searchUsers (db : VulnerableDatabase) (query : string)
  : run (list string) :=
  let sql := sql_of query in
  cout ("Executing SQL: " ++ sql ++ endl) ;;
  ret (search_loop (users db) query []).

(** [getUserData(int index)]: in [index < users.size()] the int is
    converted to size_t; the result is a new string holding a copy, or
    nullptr ([None]).  [users[index]] outside the vector is undefined. *)
Definition getUserData (db : VulnerableDatabase) (index : Z)
  : run (option string) :=
  if (0 <=? index) && (to_size_t index <? Z.of_nat (List.length (users db))) then
    match nth_error (users db) (Z.to_nat index) with
    | Some u => ret (Some u)
    | None => fail (OutOfBounds (List.length (users db)) (Z.to_nat index))
    end
  else ret None.

(** class WebServer *)
Record WebServer : Type := Server {
  admin_token : string;
  db : VulnerableDatabase
}.

Definition new_WebServer : WebServer :=
  {| admin_token := "admin_secret_123"; db := {| users := [] |} |}.

(** [std::system(command.c_str())] *)
Definition executeSystemCommand (cmd : string) : run unit :=
  let command := "echo " ++ cmd in
  system (c_str command).

(** [std::ifstream file(filename)] opens the file named by the C string
    of [filename]; the content is copied whole. *)
Definition readFile (e : env) (filename : string) : run string :=
  emit (Open (c_str filename)) ;;
  match fs e (c_str filename) with
  | Some content => emit (Close (c_str filename)) ;; ret content
  | None => ret "File not found"
  end.

(** [printf(message.c_str()); printf("\n");] *)
Definition logMessage (message : string) : run unit :=
  printf (c_str message) [] ;;
  printf (String LF "") [].

Definition authenticate (srv : WebServer) (token : string) : bool :=
  String.eqb token (admin_token srv).

(** [allocateBuffer(size_t size)]: the product is taken in size_t. *)
Definition allocateBuffer (e : env) (size : Z) : run unit :=
  if 0 <? size then
    let total_size := to_size_t (size * sizeof_char * 2) in
    buffer <- new_chars e total_size ;;
    cout ("Allocated " ++ decimal total_size ++ " bytes" ++ endl) ;;
    emit (Release buffer)
  else ret tt.

(** The for loop of main over the results of a search. *)
Fixpoint print_found (results : list string) : run unit :=
  match results with
  | [] => ret tt
  | r :: rs => cout ("Found user: " ++ r ++ endl) ;; print_found rs
  end.

(** main, the part on the line read by std::getline. *)
Definition process_line (e : env) (server : WebServer) (user_input : string)
  : run unit :=
  logMessage user_input ;;
  (p <- substr user_input 0 5 ;;
   if String.eqb p "exec:"
   then a <- substr_from user_input 5 ;; executeSystemCommand a
   else ret tt) ;;
  (p <- substr user_input 0 5 ;;
   if String.eqb p "file:"
   then a <- substr_from user_input 5 ;;
        content <- readFile e a ;;
        cout ("File content: " ++ content ++ endl)
   else ret tt) ;;
  (p <- substr user_input 0 6 ;;
   if String.eqb p "alloc:"
   then a <- substr_from user_input 6 ;;
        size <- stoull a ;;
        allocateBuffer e size
   else ret tt) ;;
  (p <- substr user_input 0 3 ;;
   if String.eqb p "db:"
   then a <- substr_from user_input 3 ;;
        results <- searchUsers (db server) a ;;
        print_found results
   else ret tt).

(** [processUserInput]: [char buffer[256]; strcpy(buffer, input);] *)
Definition processUserInput (input : string) : run unit :=
  buffer <- strcpy 256 input ;;
  cout ("Processed: " ++ buffer ++ endl).

(** main, the part on argv[1]. *)
Definition process_argument (arg1 : string) : run unit :=
  cout "Processing argument: " ;;
  printf arg1 [] ;;
  cout endl ;;
  if (100 <? len arg1)%nat then processUserInput arg1 else ret tt.

(** main, the part on the environment variable DEBUG. *)
Definition read_debug (debug_env : option string) : run unit :=
  match debug_env with
  | Some d => cout ("Debug mode: " ++ d ++ endl) ;; logMessage d
  | None => ret tt
  end.

(** The global configuration text, one thread at a time. *)
Definition updateGlobalConfig (config : string) : prog string unit :=
  sput config.

Definition getGlobalConfig : prog string string := sget.

(** class LeakyResource: [file_handle] is NULL ([None]) or the open file,
    held as its unread rest.  There is no destructor and no fclose. *)
Record LeakyResource : Type := Leaky { file_handle : option string }.

Definition new_LeakyResource (e : env) (filename : string)
  : run LeakyResource :=
  emit (Open filename) ;;
  ret {| file_handle := fs e filename |}.

(** The while loop of [process]: [char buffer[1024]], one
    [std::cout << buffer] per fgets; the result is the unread rest. *)
Fixpoint leaky_lines (fuel : nat) (stream : string) : run string :=
  match fgets 1024 stream with
  | None => ret stream
  | Some (buffer, rest) =>
      match fuel with
      | O => fail OutOfFuel
      | S fuel' => cout (c_str buffer) ;; leaky_lines fuel' rest
      end
  end.

Definition process (r : LeakyResource) : run LeakyResource :=
  match file_handle r with
  | Some stream =>
      rest <- leaky_lines (len stream) stream ;;
      ret {| file_handle := Some rest |}
  | None => ret r
  end.

(** The strings owned through std::unique_ptr: a pointer is the number
    of its object; [objects] lists the objects not yet destroyed. *)
Record store : Type := Store { fresh : nat; objects : list (nat * string) }.

Fixpoint lookup (p : nat) (l : list (nat * string)) : option string :=
  match l with
  | [] => None
  | (q, v) :: l' => if Nat.eqb p q then Some v else lookup p l'
  end.

Definition make_unique (st : store) (v : string) : nat * store :=
  (fresh st, {| fresh := S (fresh st); objects := (fresh st, v) :: objects st |}).

Definition destroy (p : nat) (st : store) : store :=
  {| fresh := fresh st;
     objects := filter (fun o => negb (Nat.eqb p (fst o))) (objects st) |}.

(** class VulnerableContainer, with the store its pointers point into. *)
Record VulnerableContainer : Type := Container {
  items : list nat;
  owned : store
}.

Definition new_VulnerableContainer : VulnerableContainer :=
  {| items := []; owned := {| fresh := O; objects := [] |} |}.

Definition addItem (item : string) : prog VulnerableContainer unit :=
  fun c =>
    let (p, st) := make_unique (owned c) item in
    SRun [] (Ok tt {| items := items c ++ [p]; owned := st |}).

(** [items.clear()] destroys every unique_ptr, and with it its string. *)
Definition clearItems : prog VulnerableContainer unit :=
  fun c =>
    SRun [] (Ok tt {| items := [];
                      owned := fold_right destroy (owned c) (items c) |}).

(** [if (!items.empty()) std::cout << *items[0] << std::endl;] *)
Definition printFirstItem : prog VulnerableContainer unit :=
  fun c =>
    match items c with
    | [] => SRun [] (Ok tt c)
    | p :: _ =>
        match lookup p (objects (owned c)) with
        | Some v => SRun [Stdout (v ++ endl)] (Ok tt c)
        | None => SRun [] (Hazard (UseAfterFree p))
        end
    end.

(** A call of [addItem] or of [clearItems], and a sequence of calls. *)
Inductive call : Type := AddItem (item : string) | ClearItems.

Fixpoint calls (cs : list call) : prog VulnerableContainer unit :=
  match cs with
  | [] => sret tt
  | AddItem item :: cs' => addItem item ;;; calls cs'
  | ClearItems :: cs' => clearItems ;;; calls cs'
  end.

End CppApp.

(** ** The shell behind system()

    An environment model, not code of the repository.  [system(cmdline)]
    runs [sh -c cmdline].  Of the POSIX shell command language only the
    plain fragment is modelled: command lines made of letters, digits,
    [/ . - _], blanks and [;], in which no command is empty (but the
    last) and none starts with a reserved word.  There a line is a
    sequential list of simple commands, each a list of words.  Every
    other line (quotes, escapes, expansions, comments, operators) is
    outside the model: [None].  [echo] writes its operands separated by
    single blanks and a newline; operands starting with [-] are left
    out, their effect depends on the shell. *)

Module Sh.

Definition plain (c : ascii) : bool :=
  let n := nat_of_ascii c in
  ((48 <=? n)%nat && (n <=? 57)%nat)
  || ((65 <=? n)%nat && (n <=? 90)%nat)
  || ((97 <=? n)%nat && (n <=? 122)%nat)
  || (n =? 47)%nat || (n =? 46)%nat || (n =? 45)%nat || (n =? 95)%nat.

Definition in_fragment (c : ascii) : bool :=
  plain c || Ascii.eqb c " " || Ascii.eqb c ";".

Fixpoint all_chars (f : ascii -> bool) (s : string) : bool :=
  match s with
  | EmptyString => true
  | String c s' => f c && all_chars f s'
  end.

Definition reserved : list string :=
  ["if"; "then"; "else"; "elif"; "fi"; "do"; "done"; "case"; "esac";
   "while"; "until"; "for"; "in"; "function"; "select"; "time"].

Definition is_reserved (w : string) : bool :=
  existsb (String.eqb w) reserved.

Definition words (s : string) : list string :=
  filter (fun w => negb (String.eqb w "")) (split_on " " s "").

(** The pieces between the [;] as simple commands: only the last piece
    may be empty. *)
Fixpoint simple_commands (pieces : list (list string))
  : option (list (list string)) :=
  match pieces with
  | [] => Some []
  | [] :: [] => Some []
  | [] :: _ :: _ => None
  | (w :: ws) :: rest =>
      if is_reserved w then None
      else option_map (cons (w :: ws)) (simple_commands rest)
  end.

(** The simple commands of a command line, each as its argument vector. *)
Definition commands (cmdline : string) : option (list (list string)) :=
  if all_chars in_fragment cmdline
  then simple_commands (map words (split_on ";" cmdline ""))
  else None.

Fixpoint unwords (ws : list string) : string :=
  match ws with
  | [] => ""
  | [w] => w
  | w :: ws' => w ++ " " ++ unwords ws'
  end.

Definition option_like (w : string) : bool :=
  match w with
  | String c _ => Ascii.eqb c "-"
  | EmptyString => false
  end.

(** What one echo command prints. *)
Definition echo_prints (argv : list string) : option string :=
  match argv with
  | "echo" :: args =>
      if existsb option_like args then None
      else Some (unwords args ++ String LF "")
  | _ => None
  end.

(** system(cmdline) creates this process. *)
Definition system_argv (cmdline : string) : list string :=
  ["sh"; "-c"; cmdline].

End Sh.

(** ** The containment check of the specification

    Used only to state what the specification asks of a path; neither
    program contains such a check.  Canonical form of a path: its
    segments with [.] and empty segments dropped and [..] resolved, a
    relative path starting from the working directory. *)

Module PathSpec.

Definition segments (p : string) : list string := split_on "/" p "".

(** [stack] holds the segments so far, the last one first. *)
Fixpoint resolve (stack : list string) (segs : list string) : list string :=
  match segs with
  | [] => rev stack
  | seg :: segs' =>
      if String.eqb seg "" || String.eqb seg "." then resolve stack segs'
      else if String.eqb seg ".." then resolve (tl stack) segs'
      else resolve (seg :: stack) segs'
  end.

Definition canonical (cwd candidate : string) : list string :=
  match candidate with
  | String "/" _ => resolve [] (segments candidate)
  | _ => resolve (rev (resolve [] (segments cwd))) (segments candidate)
  end.

Fixpoint descendant (root p : list string) : bool :=
  match root, p with
  | [], _ => true
  | r :: root', s :: p' => String.eqb r s && descendant root' p'
  | _ :: _, [] => false
  end.

Definition escapes_root (allowed_root cwd candidate : string) : bool :=
  negb (descendant (canonical "/" allowed_root) (canonical cwd candidate)).

End PathSpec.

(** ** Sample surroundings for the concrete runs *)

(** A machine with a password file, seen from the working directory
    [/app/data], whose allocator serves every request. *)
Definition sample_env : env :=
  {| fs := fun p =>
       if String.eqb p "../../etc/passwd"
       then Some ("root:x:0:0" ++ String LF "") else None;
     heap_ok := fun _ => true |}.

(** [q] occurs in [u] as a substring. *)
Definition occurs_in (q u : string) : Prop :=
  exists pre post, u = pre ++ q ++ post.

(** [s.find(q) != npos], as used by the loop. *)
Definition found (q u : string) : bool :=
  match CppApp.find u q with Some _ => true | None => false end.

(** An event that only writes to standard output. *)
Definition is_output (ev : event) : Prop :=
  match ev with
  | Stdout _ => True
  | _ => False
  end.

(** What a container holds after a sequence of calls, as a list of
    strings: the items added since the last clear. *)
Fixpoint replay (held : list string) (cs : list CppApp.call) : list string :=
  match cs with
  | [] => held
  | CppApp.AddItem item :: cs' => replay (held ++ [item]) cs'
  | CppApp.ClearItems :: cs' => replay [] cs'
  end.

(** What main.c writes for every line before it looks for a command. *)
Definition echoed (line : string) : list event :=
  [Stdout "Log: "; Stdout line; Stdout (String LF "");
   Stdout ("Copied: " ++ line ++ String LF "")].

(** The container [c] holds the strings [held]: its pointers lead to them
    in order, the store holds the objects of the container and no other,
    and every object number is below the next fresh one. *)
Definition represents (c : CppApp.VulnerableContainer) (held : list string)
  : Prop :=
  map (fun p => CppApp.lookup p (CppApp.objects (CppApp.owned c)))
      (CppApp.items c)
  = map Some held
  /\ Forall (fun o => (fst o < CppApp.fresh (CppApp.owned c))%nat
                      /\ In (fst o) (CppApp.items c))
            (CppApp.objects (CppApp.owned c)).

(** * Properties *)

(** ** Strings and runs *)

Lemma append_nil_r (s : string) : s ++ "" = s.
Proof. induction s as [|c s IH]; simpl; [reflexivity | now rewrite IH]. Qed.

Lemma append_assoc (a b c : string) : (a ++ b) ++ c = a ++ b ++ c.
Proof. induction a as [|x a IH]; simpl; [reflexivity | now rewrite IH]. Qed.

Lemma len_append (a b : string) : len (a ++ b) = (len a + len b)%nat.
Proof. unfold len. induction a as [|x a IH]; simpl; [reflexivity | now rewrite IH]. Qed.

Lemma chars_append (a b : string) : chars (a ++ b) = (chars a ++ chars b)%list.
Proof. induction a as [|x a IH]; simpl; [reflexivity | now rewrite IH]. Qed.

Lemma byte_inj (c d : ascii) : byte c = byte d -> c = d.
Proof.
  unfold byte. intros H. apply Nat2Z.inj in H.
  rewrite <- (ascii_nat_embedding c), <- (ascii_nat_embedding d).
  now rewrite H.
Qed.

Lemma byte_zero (c : ascii) : byte c = 0 -> c = NUL.
Proof. intros H. apply byte_inj. exact H. Qed.

Lemma cstring_tail (c : ascii) (s : string) : cstring (String c s) -> cstring s.
Proof. unfold cstring. simpl. tauto. Qed.

Lemma cstring_head (c : ascii) (s : string) : cstring (String c s) -> byte c <> 0.
Proof.
  unfold cstring. simpl. intros H E. apply H. left. now apply byte_zero.
Qed.

Lemma bind_ret {A B} (a : A) (k : A -> run B) : bind (ret a) k = k a.
Proof. unfold bind, ret. simpl. now destruct (k a). Qed.

Lemma bind_fail {A B} (f : fault) (k : A -> run B) : bind (fail f) k = fail f.
Proof. reflexivity. Qed.

(** ** C strings *)

Lemma len_c_str (s : string) : (len (Libc.c_str s) <= len s)%nat.
Proof.
  unfold len. induction s as [|c s IH]; simpl; [lia|].
  destruct (Ascii.eqb c NUL); simpl; lia.
Qed.

Lemma c_str_cstring (s : string) : cstring s -> Libc.c_str s = s.
Proof.
  induction s as [|c s IH]; intros H; [reflexivity|].
  cbn [Libc.c_str]. destruct (Ascii.eqb_spec c NUL) as [->|N].
  - exfalso. apply H. now left.
  - rewrite IH; eauto using cstring_tail.
Qed.

Lemma chars_c_str (s : string) (c : ascii) :
  In c (chars (Libc.c_str s)) -> In c (chars s).
Proof.
  induction s as [|d s IH]; simpl; [tauto|].
  destruct (Ascii.eqb d NUL); simpl; [tauto|].
  intros [E|I]; [now left | right; now apply IH].
Qed.

Lemma cstring_append (a b : string) :
  cstring (a ++ b) -> cstring a /\ cstring b.
Proof.
  unfold cstring. rewrite chars_append. intros H.
  split; intros I; apply H; apply in_or_app; tauto.
Qed.


(** ** strcmp *)

Lemma strcmp_refl (a : string) : Libc.strcmp a a = 0.
Proof. induction a as [|c a IH]; simpl; [reflexivity | now rewrite Ascii.eqb_refl]. Qed.

Lemma strcmp_zero (a b : string) :
  cstring a -> cstring b -> Libc.strcmp a b = 0 -> a = b.
Proof.
  revert b. induction a as [|c a IH]; intros [|d b] Ha Hb; simpl.
  - reflexivity.
  - intros E. apply cstring_head in Hb. lia.
  - intros E. apply cstring_head in Ha. lia.
  - destruct (Ascii.eqb_spec c d) as [->|N].
    + intros E. f_equal. apply IH; eauto using cstring_tail.
    + intros E. exfalso. apply N. apply byte_inj. lia.
Qed.

Lemma strcmp_eqb (a b : string) :
  cstring a -> cstring b -> (Libc.strcmp a b =? 0) = String.eqb a b.
Proof.
  intros Ha Hb. destruct (String.eqb_spec a b) as [->|N].
  - now rewrite strcmp_refl.
  - apply Z.eqb_neq. intros E. apply N. now apply strcmp_zero.
Qed.

Lemma cstring_admin : cstring "admin".
Proof. unfold cstring, NUL. simpl. intuition discriminate. Qed.

Lemma cstring_admin123 : cstring "admin123".
Proof. unfold cstring, NUL. simpl. intuition discriminate. Qed.

(** ** std::string::find and the search loop *)

Lemma prefix_append (q s : string) :
  prefix q s = true <-> exists t, s = q ++ t.
Proof.
  revert s. induction q as [|c q IH]; intros s.
  - split; [intros _; now exists s | intros _; now destruct s].
  - destruct s as [|d s]; simpl.
    + split; [discriminate | intros [t E]; discriminate].
    + destruct (ascii_dec c d) as [->|N].
      * rewrite IH. split; intros [t E]; exists t; congruence.
      * split; [discriminate | intros [t E]; congruence].
Qed.

Lemma find_occurs (u q : string) :
  CppApp.find u q <> None <-> occurs_in q u.
Proof.
  unfold occurs_in. induction u as [|c u IH].
  - cbn [CppApp.find]. destruct (prefix q "") eqn:P.
    + split; [intros _ | discriminate].
      apply prefix_append in P. destruct P as [t E]. now exists "", t.
    + split; [congruence |].
      intros [[|x pre] [post E]]; simpl in E.
      * assert (prefix q "" = true) by (apply prefix_append; now exists post).
        congruence.
      * discriminate.
  - cbn [CppApp.find]. destruct (prefix q (String c u)) eqn:P.
    + split; [intros _ | discriminate].
      apply prefix_append in P. destruct P as [t E]. now exists "", t.
    + split.
      * intros H. destruct (CppApp.find u q) eqn:F; [|now elim H].
        destruct IH as [IH _]. destruct IH as [pre [post E]]; [discriminate|].
        exists (String c pre), post. simpl. now rewrite E.
      * intros [[|x pre] [post E]]; simpl in E.
        -- assert (prefix q (String c u) = true)
             by (apply prefix_append; now exists post).
           congruence.
        -- injection E as -> E. destruct IH as [_ IH].
           destruct (CppApp.find u q); [discriminate|].
           elim IH; [now exists pre, post | reflexivity].
Qed.

Lemma found_occurs (q u : string) : found q u = true <-> occurs_in q u.
Proof.
  rewrite <- find_occurs. unfold found.
  destruct (CppApp.find u q); split; congruence.
Qed.

Lemma search_loop_filter (us : list string) (q : string) (acc : list string) :
  CppApp.search_loop us q acc = (acc ++ filter (found q) us)%list.
Proof.
  revert acc. induction us as [|u us IH]; intros acc; simpl.
  - now rewrite app_nil_r.
  - rewrite IH. unfold found. destruct (CppApp.find u q); simpl.
    + now rewrite <- app_assoc.
    + reflexivity.
Qed.

(** ** Authentication in main.c *)

(** C10.  [authenticate_user] returns 1 exactly when the user name is
    ["admin"] and the password is the value ["admin123"] that the global
    [admin_password] holds; for every other pair it returns 0.  Of the
    global state only [admin_password] is read: any globals holding the
    same password give the same answer. *)
Theorem authenticate_user_exact (username password : string)
    (Hu : cstring username) (Hp : cstring password) :
  (CApp.authenticate_user CApp.initial_globals username password = 1
   <-> username = "admin" /\ password = "admin123")
  /\ (CApp.authenticate_user CApp.initial_globals username password = 0
      <-> ~ (username = "admin" /\ password = "admin123"))
  /\ (forall g : CApp.globals,
        CApp.admin_password g = "admin123" ->
        CApp.authenticate_user g username password
        = CApp.authenticate_user CApp.initial_globals username password).
Proof.
  unfold CApp.authenticate_user. simpl CApp.admin_password.
  rewrite (strcmp_eqb Hu cstring_admin), (strcmp_eqb Hp cstring_admin123).
  repeat split.
  - destruct (String.eqb_spec username "admin"); [|discriminate]. assumption.
  - destruct (String.eqb_spec username "admin"); [|discriminate].
    destruct (String.eqb_spec password "admin123"); [|discriminate]. assumption.
  - intros [-> ->]. reflexivity.
  - intros H [-> ->]. discriminate.
  - intros H.
    destruct (String.eqb_spec username "admin");
      destruct (String.eqb_spec password "admin123"); simpl; tauto.
  - intros g ->. now rewrite (strcmp_eqb Hp cstring_admin123).
Qed.

Lemma authenticate_user_exact_witness :
  cstring "admin" /\ cstring "admin123"
  /\ CApp.authenticate_user CApp.initial_globals "admin" "admin123" = 1.
Proof.
  split; [exact cstring_admin|]. split; [exact cstring_admin123|].
  apply (proj1 (@authenticate_user_exact "admin" "admin123"
                  cstring_admin cstring_admin123)).
  split; reflexivity.
Defined.

(** ** The user list of main.cpp *)

(** C9.  For every int [index], [getUserData] returns nullptr when the
    index is negative or not less than the number of users, and otherwise
    a new string that holds a copy of the user at that index; the vector
    is never indexed outside its bounds. *)
Theorem getUserData_bounds (d : CppApp.VulnerableDatabase) (index : Z)
    (Hi : in_int index) :
  (index < 0 \/ Z.of_nat (List.length (CppApp.users d)) <= index ->
   CppApp.getUserData d index = ret None)
  /\ (0 <= index < Z.of_nat (List.length (CppApp.users d)) ->
      exists u, nth_error (CppApp.users d) (Z.to_nat index) = Some u
                /\ CppApp.getUserData d index = ret (Some u))
  /\ (forall f, outcome (CppApp.getUserData d index) <> Fault f).
Proof.
  assert (Hs : 0 <= index -> to_size_t index = index).
  { intros H. unfold to_size_t, SIZE_MOD. apply Z.mod_small.
    unfold in_int, INT_MAX in Hi. lia. }
  assert (Hin : 0 <= index < Z.of_nat (List.length (CppApp.users d)) ->
                exists u, nth_error (CppApp.users d) (Z.to_nat index) = Some u
                          /\ CppApp.getUserData d index = ret (Some u)).
  { intros H. unfold CppApp.getUserData. rewrite (Hs (proj1 H)).
    replace (0 <=? index) with true by (symmetry; apply Z.leb_le; lia).
    replace (index <? _) with true by (symmetry; apply Z.ltb_lt; lia).
    simpl. destruct (nth_error (CppApp.users d) (Z.to_nat index)) as [u|] eqn:E.
    - now exists u.
    - apply nth_error_None in E. lia. }
  assert (Hout : index < 0 \/ Z.of_nat (List.length (CppApp.users d)) <= index ->
                 CppApp.getUserData d index = ret None).
  { intros H. unfold CppApp.getUserData.
    destruct (Z.leb_spec 0 index) as [P|P]; [|reflexivity].
    rewrite (Hs P).
    replace (index <? _) with false by (symmetry; apply Z.ltb_ge; lia).
    reflexivity. }
  repeat split; try assumption.
  intros f.
  destruct (Z_lt_ge_dec index 0) as [L|L]; [rewrite Hout by lia; discriminate|].
  destruct (Z_lt_ge_dec index (Z.of_nat (List.length (CppApp.users d)))) as [M|M].
  - destruct Hin as [u [_ ->]]; [lia | discriminate].
  - rewrite Hout by lia. discriminate.
Qed.

Lemma getUserData_bounds_witness :
  in_int 1
  /\ CppApp.getUserData (CppApp.Database ["alice"; "bob"]) 1 = ret (Some "bob").
Proof.
  assert (H : in_int 1) by (unfold in_int, INT_MIN, INT_MAX; lia).
  split; [exact H|].
  destruct (proj1 (proj2 (@getUserData_bounds
                            (CppApp.Database ["alice"; "bob"]) 1 H)))
    as [u [E ->]].
  - simpl. lia.
  - simpl in E. now injection E as <-.
Defined.

(** C8.  For every query and every list of stored users, [searchUsers]
    returns exactly the stored users that contain the query as a
    substring, in their stored order.  The SQL text is only written to
    standard output: the run has no other effect, and the result is a
    function of the user list and the query alone. *)
Theorem searchUsers_substring_matches
    (d : CppApp.VulnerableDatabase) (query : string) :
  exists results : list string,
    CppApp.searchUsers d query
    = Run [Stdout ("Executing SQL: " ++ CppApp.sql_of query ++ CppApp.endl)]
          (Done results)
    /\ results = filter (found query) (CppApp.users d)
    /\ (forall u, In u results <-> In u (CppApp.users d) /\ occurs_in query u).
Proof.
  exists (filter (found query) (CppApp.users d)). split; [|split].
  - unfold CppApp.searchUsers, CppApp.cout, emit, bind, ret. simpl.
    now rewrite search_loop_filter.
  - reflexivity.
  - intros u. rewrite filter_In, found_occurs. tauto.
Qed.

(** ** printf with the input as its format *)

Lemma format_plain (s : string) (args : list Libc.arg) :
  ~ In "%"%char (chars s) -> Libc.format s args = Some s.
Proof.
  induction s as [|c s IH]; simpl; intros H; [reflexivity|].
  destruct (Ascii.eqb_spec c "%") as [->|N]; [tauto|].
  rewrite IH by tauto. reflexivity.
Qed.



Lemma no_percent_c_str (s : string) :
  ~ In "%"%char (chars s) -> ~ In "%"%char (chars (Libc.c_str s)).
Proof. intros H I. apply H. now apply chars_c_str. Qed.




(** ** Copies into fixed arrays *)



(** ** Numbers in text *)

Ltac eval_digit :=
  match goal with
  | |- context [Libc.digit ?c] =>
      let v := eval vm_compute in (Libc.digit c) in
      change (Libc.digit c) with v
  end.

(** Reading the digits of a numeral continues the value read so far. *)
Lemma digits_numeral (d d' : Decimal.uint) :
  Libc.digits (Z.of_N (Unsigned.of_lu d')) (NilEmpty.string_of_uint d)
  = (Z.of_N (Unsigned.of_lu (Decimal.revapp d d')), Decimal.nb_digits d).
Proof.
  revert d'.
  induction d as [|d IH|d IH|d IH|d IH|d IH|d IH|d IH|d IH|d IH|d IH];
    intros d'; [reflexivity|..];
    cbn [NilEmpty.string_of_uint Libc.digits Decimal.revapp Decimal.nb_digits];
    eval_digit; cbv iota beta;
    match goal with
    | |- context [Libc.digits ?a (NilEmpty.string_of_uint d)] =>
        match goal with
        | |- context [Decimal.revapp d ?x] =>
            replace a with (Z.of_N (Unsigned.of_lu x))
              by (cbn [Unsigned.of_lu]; lia);
            rewrite (IH x); reflexivity
        end
    end.
Qed.

Lemma digits_decimal (n : N) :
  fst (Libc.digits 0 (decimal (Z.of_N n))) = Z.of_N n
  /\ snd (Libc.digits 0 (decimal (Z.of_N n))) <> O.
Proof.
  unfold decimal. rewrite N2Z.id.
  change 0 with (Z.of_N (Unsigned.of_lu Decimal.Nil)).
  rewrite digits_numeral. cbn [fst snd]. split.
  - change (Decimal.revapp (N.to_uint n) Decimal.Nil)
      with (Decimal.rev (N.to_uint n)).
    rewrite <- Unsigned.of_uint_alt.
    change (Pos.of_uint (N.to_uint n)) with (N.of_uint (N.to_uint n)).
    now rewrite DecimalN.Unsigned.of_to.
  - destruct n as [|p]; [discriminate|]. simpl N.to_uint.
    pose proof (Unsigned.to_uint_nonnil p) as H.
    destruct (Pos.to_uint p); [congruence | discriminate ..].
Qed.

Lemma digit_not_sign (c : ascii) :
  Libc.digit c <> None ->
  Libc.isspace c = false /\ Ascii.eqb c "-" = false /\ Ascii.eqb c "+" = false.
Proof.
  intros D. split; [|split].
  - unfold Libc.digit in D. unfold Libc.isspace.
    destruct ((48 <=? nat_of_ascii c)%nat && (nat_of_ascii c <=? 57)%nat) eqn:R;
      [|congruence].
    apply andb_prop in R. destruct R as [R1 R2].
    apply Nat.leb_le in R1. apply Nat.leb_le in R2.
    apply orb_false_iff. split.
    + apply Nat.eqb_neq. lia.
    + apply andb_false_iff. right. apply Nat.leb_gt. lia.
  - destruct (Ascii.eqb_spec c "-") as [->|]; [|reflexivity].
    exfalso. apply D. reflexivity.
  - destruct (Ascii.eqb_spec c "+") as [->|]; [|reflexivity].
    exfalso. apply D. reflexivity.
Qed.

Lemma decimal_head (n : N) :
  exists c s, decimal (Z.of_N n) = String c s /\ Libc.digit c <> None.
Proof.
  destruct (digits_decimal n) as [_ K].
  unfold decimal in *. rewrite N2Z.id in *.
  destruct (N.to_uint n); [simpl in K; congruence|..];
    eexists; eexists; (split; [reflexivity | vm_compute; discriminate]).
Qed.

Lemma subject_decimal (n : N) :
  Libc.subject (decimal (Z.of_N n)) = Some (false, Z.of_N n).
Proof.
  destruct (digits_decimal n) as [V K].
  destruct (decimal_head n) as [c [s [E D]]].
  destruct (@digit_not_sign c D) as [W [M P]].
  unfold Libc.subject. rewrite E in *. cbn [Libc.skip_space].
  rewrite W, M, P.
  destruct (Libc.digits 0 (String c s)) as [v k]. simpl in V, K. subst v.
  destruct k; [congruence | reflexivity].
Qed.








(** ** Allocation sizes *)

Lemma format_allocated (n : Z) :
  Libc.format ("Allocated %u bytes" ++ String LF "") [Libc.AUInt n]
  = Some ("Allocated " ++ decimal n ++ " bytes" ++ String LF "").
Proof. reflexivity. Qed.

(** C3, as the code has it.  Neither program checks the product: the
    only test is [size > 0].  [allocateBuffer] asks for [size * 2] bytes
    computed in size_t, that is modulo 2^64, which is the true product
    below 2^63 and the product less 2^64 from 2^63 on; it goes on to
    allocate, print and release with that value.  In [allocate_memory]
    the product [size * sizeof(char)] of an unsigned int is [size]
    itself.  There is no Overflow result. *)
Theorem allocation_sizes_unchecked (e : env) (size : Z)
    (H : 0 < size < SIZE_MOD) :
  CppApp.allocateBuffer e size
  = (if heap_ok e ((size * 2) mod SIZE_MOD)
     then Run [Alloc ((size * 2) mod SIZE_MOD);
               Stdout ("Allocated " ++ decimal ((size * 2) mod SIZE_MOD)
                       ++ " bytes" ++ CppApp.endl);
               Release ((size * 2) mod SIZE_MOD)]
              (Done tt)
     else Run [Alloc ((size * 2) mod SIZE_MOD)] (Fault (Raise bad_alloc)))
  /\ (size < 2 ^ 63 -> (size * 2) mod SIZE_MOD = size * 2)
  /\ (2 ^ 63 <= size -> (size * 2) mod SIZE_MOD = size * 2 - 2 ^ 64)
  /\ (size < UINT_MOD ->
      CApp.allocate_memory e size
      = (if heap_ok e size
         then Run [Alloc size;
                   Stdout ("Allocated " ++ decimal size ++ " bytes"
                           ++ String LF "");
                   Release size]
                  (Done tt)
         else Run [Alloc size;
                   Stdout ("Memory allocation failed" ++ String LF "")]
                  (Done tt))).
Proof.
  unfold SIZE_MOD, UINT_MOD in *.
  assert (P : (0 <? size) = true) by (apply Z.ltb_lt; lia).
  split; [|split; [|split]].
  - unfold CppApp.allocateBuffer, CppApp.new_chars, to_size_t, sizeof_char, SIZE_MOD.
    rewrite P, Z.mul_1_r.
    destruct (heap_ok e ((size * 2) mod 2 ^ 64)); reflexivity.
  - intros L. apply Z.mod_small. lia.
  - intros L. rewrite <- (Z.mod_add _ (-1)) by lia. rewrite Z.mod_small; lia.
  - intros L.
    unfold CApp.allocate_memory, Libc.malloc, Libc.free, Libc.printf,
      to_size_t, sizeof_char, SIZE_MOD.
    rewrite P, Z.mul_1_r, Z.mod_small by lia.
    rewrite format_allocated.
    destruct (heap_ok e size); reflexivity.
Qed.

Lemma allocation_sizes_unchecked_witness :
  0 < 2 ^ 63 < SIZE_MOD
  /\ CppApp.allocateBuffer sample_env (2 ^ 63)
     = Run [Alloc 0; Stdout ("Allocated 0 bytes" ++ String LF ""); Release 0]
           (Done tt).
Proof.
  assert (H : 0 < 2 ^ 63 < SIZE_MOD) by (unfold SIZE_MOD; lia).
  split; [exact H|].
  exact (proj1 (@allocation_sizes_unchecked sample_env (2 ^ 63) H)).
Defined.

(** C3, as stated, fails: for [size = 2^63] the product [size * 2] is
    2^64, which size_t cannot hold; [allocateBuffer] goes on with the
    wrapped product 0, and so does main.cpp on the line
    ["alloc:9223372036854775808"]. *)
Lemma allocation_overflow_counterexample :
  SIZE_MOD <= 2 ^ 63 * 2
  /\ CppApp.allocateBuffer sample_env (2 ^ 63)
     = Run [Alloc 0; Stdout ("Allocated 0 bytes" ++ String LF ""); Release 0]
           (Done tt)
  /\ CppApp.process_line sample_env CppApp.new_WebServer
       "alloc:9223372036854775808"
     = Run [Stdout "alloc:9223372036854775808"; Stdout (String LF "");
            Alloc 0; Stdout ("Allocated 0 bytes" ++ String LF ""); Release 0]
           (Done tt).
Proof.
  split; [unfold SIZE_MOD; lia|]. split; vm_compute; reflexivity.
Qed.

(** ** Files *)

Lemma bind_emit {B} (ev : event) (k : unit -> run B) :
  bind (emit ev) k = Run (ev :: trace (k tt)) (outcome (k tt)).
Proof. reflexivity. Qed.

Lemma fgets_take_spec (room : nat) (s : string) :
  fst (Libc.fgets_take room s) ++ snd (Libc.fgets_take room s) = s
  /\ (len (fst (Libc.fgets_take room s)) <= room)%nat
  /\ (0 < room -> s <> "" -> 0 < len (fst (Libc.fgets_take room s)))%nat.
Proof.
  revert s. induction room as [|r IH]; intros s.
  - simpl. repeat split; [lia | lia].
  - destruct s as [|c s]; simpl.
    + repeat split; [lia | congruence].
    + destruct (Ascii.eqb c LF); simpl.
      * repeat split; [lia | lia].
      * destruct (IH s) as [E [L _]].
        destruct (Libc.fgets_take r s) as [l rest]. simpl in *.
        rewrite E. repeat split; [lia | lia].
Qed.

(** With fuel for every character left, the loop of [read_config_file]
    reaches the end of the file: it reads the file in pieces of 1 to 511
    characters and prints the C string of each after ["Config: "]. *)
Lemma config_lines_total (fuel : nat) (stream : string) :
  (len stream <= fuel)%nat ->
  exists pieces : list string,
    join pieces = stream
    /\ Forall (fun p => (1 <= len p <= 511)%nat) pieces
    /\ (cstring stream -> map Libc.c_str pieces = pieces)
    /\ CApp.config_lines fuel stream
       = Run (map (fun p => Stdout ("Config: " ++ Libc.c_str p)) pieces)
             (Done tt).
Proof.
  revert stream. induction fuel as [|fuel IH]; intros stream L.
  - destruct stream; [|simpl in L; lia].
    exists []. repeat split. constructor.
  - destruct stream as [|c s].
    { exists []. repeat split. constructor. }
    destruct (fgets_take_spec 511 (String c s)) as [E [B P]].
    cbn [CApp.config_lines Libc.fgets]. change (512 - 1)%nat with 511%nat.
    destruct (Libc.fgets_take 511 (String c s)) as [l rest]. simpl fst in *.
    simpl snd in *.
    assert (0 < len l)%nat by (apply P; [lia | congruence]).
    assert (Lr : (len rest <= fuel)%nat).
    { assert (len (l ++ rest) = len (String c s)) by now rewrite E.
      rewrite len_append in *. simpl in *. unfold len in *. simpl in *. lia. }
    destruct (IH rest Lr) as [pieces [J [F [C R]]]].
    exists (l :: pieces). split; [simpl; now rewrite J|]. split; [|split].
    + constructor; [lia | assumption].
    + intros Hc. rewrite <- E in Hc. apply cstring_append in Hc.
      destruct Hc as [Hl Hr]. simpl.
      now rewrite (c_str_cstring Hl), (C Hr).
    + unfold Libc.printf. cbn [Libc.format Ascii.eqb Bool.eqb option_map append].
      rewrite append_nil_r, bind_emit, R. reflexivity.
Qed.

(** C4, as the code has it.  Both programs open the path they are given,
    with no canonical form and no allowed root: [read_config_file] the C
    string it is passed, [readFile] the C string of its std::string, which
    ends at the first NUL.  When the file exists, [read_config_file]
    reads all of it, in pieces of at most 511 characters, and prints each
    piece after ["Config: "] up to the first NUL in the piece, which is
    the whole piece for a file without NUL; [readFile] returns all of it.
    When the file does not exist the first prints nothing and the second
    returns ["File not found"].  Neither returns an error. *)
Theorem files_opened_as_given (e : env) (filename : string) :
  match fs e filename with
  | Some content =>
      exists pieces : list string,
        join pieces = content
        /\ Forall (fun p => (1 <= len p <= 511)%nat) pieces
        /\ (cstring content -> map Libc.c_str pieces = pieces)
        /\ CApp.read_config_file e filename
           = Run (Open filename
                  :: map (fun p => Stdout ("Config: " ++ Libc.c_str p)) pieces
                  ++ [Close filename])
                 (Done tt)
  | None =>
      CApp.read_config_file e filename = Run [Open filename] (Done tt)
  end
  /\ match fs e (Libc.c_str filename) with
     | Some content =>
         CppApp.readFile e filename
         = Run [Open (Libc.c_str filename); Close (Libc.c_str filename)]
               (Done content)
     | None =>
         CppApp.readFile e filename
         = Run [Open (Libc.c_str filename)] (Done "File not found")
     end.
Proof.
  split.
  - unfold CApp.read_config_file.
    destruct (fs e filename) as [content|]; [|reflexivity].
    destruct (@config_lines_total (len content) content (le_n _))
      as [pieces [J [F [C R]]]].
    exists pieces. repeat split; try assumption.
    rewrite bind_emit, R. reflexivity.
  - unfold CppApp.readFile.
    destruct (fs e (Libc.c_str filename)); reflexivity.
Qed.

(** C4, as stated, fails: seen from [/app/data], the path
    ["../../etc/passwd"] has the canonical form [/etc/passwd], outside
    the root [/app/data]; on the line ["file:../../etc/passwd"] both
    programs open that path and write the content of the file. *)
Lemma path_traversal_counterexample :
  PathSpec.canonical "/app/data" "../../etc/passwd" = ["etc"; "passwd"]
  /\ PathSpec.escapes_root "/app/data" "/app/data" "../../etc/passwd" = true
  /\ CApp.process_line sample_env "file:../../etc/passwd"
     = Run [Stdout "Log: "; Stdout "file:../../etc/passwd";
            Stdout (String LF "");
            Stdout ("Copied: file:../../etc/passwd" ++ String LF "");
            Open "../../etc/passwd";
            Stdout ("Config: root:x:0:0" ++ String LF "");
            Close "../../etc/passwd"]
           (Done tt)
  /\ CppApp.process_line sample_env CppApp.new_WebServer
       "file:../../etc/passwd"
     = Run [Stdout "file:../../etc/passwd"; Stdout (String LF "");
            Open "../../etc/passwd"; Close "../../etc/passwd";
            Stdout ("File content: root:x:0:0" ++ String LF ""
                    ++ String LF "")]
           (Done tt).
Proof. repeat split; vm_compute; reflexivity. Qed.

(** ** The command lines of main.c *)

Lemma strncmp_prefix (b a : string) :
  cstring b ->
  (Libc.strncmp a b (len b) =? 0) = String.eqb (take (len b) a) b.
Proof.
  revert a. induction b as [|d b IH]; intros a Hb.
  - destruct a; reflexivity.
  - change (len (String d b)) with (S (len b)).
    destruct a as [|c a]; cbn [Libc.strncmp take].
    + pose proof (cstring_head Hb). apply Z.eqb_neq. lia.
    + change (String c (take (len b) a) =? String d b)%string
        with ((c =? d)%char && (take (len b) a =? b)%string).
      destruct (Ascii.eqb_spec c d) as [->|N]; simpl andb.
      * apply IH. eauto using cstring_tail.
      * apply Z.eqb_neq. intros E. apply N, byte_inj. lia.
Qed.

Lemma cstring_literal_exec : cstring "exec:".
Proof. unfold cstring, NUL. simpl. intuition discriminate. Qed.

Lemma cstring_literal_alloc : cstring "alloc:".
Proof. unfold cstring, NUL. simpl. intuition discriminate. Qed.

Lemma cstring_literal_file : cstring "file:".
Proof. unfold cstring, NUL. simpl. intuition discriminate. Qed.

Lemma cstring_literal_cmd : cstring "CMD:".
Proof. unfold cstring, NUL. simpl. intuition discriminate. Qed.

Lemma bind_done {A B} (t : list event) (a : A) (k : A -> run B) :
  bind (Run t (Done a)) k = Run (t ++ trace (k a)) (outcome (k a)).
Proof. reflexivity. Qed.

Lemma bind_fault {A B} (t : list event) (f : fault) (k : A -> run B) :
  bind (Run t (Fault f)) k = Run t (Fault f).
Proof. reflexivity. Qed.

Lemma bind_unit_ret (c : run unit) : bind c (fun _ => ret tt) = c.
Proof.
  destruct c as [t [[]|f]]; unfold bind; simpl; [|reflexivity].
  now rewrite app_nil_r.
Qed.

Lemma log_message_plain (line : string) :
  ~ In "%"%char (chars line) ->
  CApp.log_message line
  = Run [Stdout "Log: "; Stdout line; Stdout (String LF "")] (Done tt).
Proof.
  intros H. unfold CApp.log_message, Libc.printf.
  rewrite (format_plain line [] H). reflexivity.
Qed.

Lemma log_message_outputs (line : string) :
  Forall is_output (trace (CApp.log_message line)).
Proof.
  unfold CApp.log_message, Libc.printf.
  destruct (Libc.format line []); simpl; repeat constructor.
Qed.

Lemma unsafe_string_copy_fits (line : string) :
  (len line <= 99)%nat ->
  CApp.unsafe_string_copy line
  = Run [Stdout ("Copied: " ++ line ++ String LF "")] (Done tt).
Proof.
  intros H. unfold CApp.unsafe_string_copy, Libc.strcpy, Libc.strcpy_stores.
  change (S (len line) <=? 100)%nat with (len line <=? 99)%nat.
  replace (len line <=? 99)%nat with true by (symmetry; now apply Nat.leb_le).
  reflexivity.
Qed.

Lemma unsafe_string_copy_overflows (line : string) :
  (100 <= len line)%nat ->
  CApp.unsafe_string_copy line
  = Run [] (Fault (OutOfBounds 100 (S (len line)))).
Proof.
  intros H. unfold CApp.unsafe_string_copy, Libc.strcpy, Libc.strcpy_stores.
  change (S (len line) <=? 100)%nat with (len line <=? 99)%nat.
  replace (len line <=? 99)%nat with false by (symmetry; apply Nat.leb_gt; lia).
  reflexivity.
Qed.

(** X1.  On a line of 100 characters or more main.c executes undefined
    behaviour before it looks for a command: printf in [log_message]
    meets a conversion without argument, or else strcpy in
    [unsafe_string_copy] stores more than the 100 bytes of its array.
    Up to there only standard output was written.  What the program does
    after that point C does not define; the run of the model ends
    there. *)
Theorem long_line_is_undefined_before_dispatch (e : env) (line : string)
    (H : (100 <= len line)%nat) :
  (outcome (CApp.process_line e line) = Fault (OutOfBounds 100 (S (len line)))
   \/ outcome (CApp.process_line e line) = Fault (BadFormat line))
  /\ Forall is_output (trace (CApp.process_line e line)).
Proof.
  unfold CApp.process_line.
  pose proof (log_message_outputs line) as O.
  rewrite (@unsafe_string_copy_overflows line H).
  destruct (CApp.log_message line) as [t [[]|f]] eqn:L.
  - rewrite bind_done, bind_fault. simpl. rewrite app_nil_r. split; [now left | exact O].
  - rewrite bind_fault. simpl. split; [|exact O].
    right. f_equal.
    unfold CApp.log_message, Libc.printf in L.
    destruct (Libc.format line []); [discriminate|]. now injection L as _ <-.
Qed.

Lemma long_line_is_undefined_before_dispatch_witness :
  (100 <= len (replicate 100 "A"))%nat
  /\ outcome (CApp.process_line sample_env (replicate 100 "A"))
     = Fault (OutOfBounds 100 101).
Proof.
  assert (H : (100 <= len (replicate 100 "A"))%nat)
    by (apply Nat.leb_le; reflexivity).
  split; [exact H|].
  destruct (proj1 (@long_line_is_undefined_before_dispatch sample_env
                     (replicate 100 "A") H)) as [E|E].
  - exact E.
  - vm_compute in E. discriminate E.
Defined.

(** X2.  On argv[1], main.c copies exactly the arguments that do not fit. *)
Theorem process_argument_copies_only_oversized (arg1 : string)
    (H : ~ In "%"%char (chars arg1)) :
  CApp.process_argument arg1
  = Run [Stdout "Processing argument: "; Stdout arg1; Stdout (String LF "")]
        (if (len arg1 <=? 100)%nat then Done tt
         else Fault (OutOfBounds 100 (S (len arg1)))).
Proof.
  unfold CApp.process_argument, Libc.printf.
  rewrite (format_plain arg1 [] H). cbn [Libc.format].
  destruct (Nat.leb_spec (len arg1) 100) as [L|L].
  - replace (100 <? len arg1)%nat with false
      by (symmetry; apply Nat.ltb_ge; lia).
    reflexivity.
  - replace (100 <? len arg1)%nat with true
      by (symmetry; apply Nat.ltb_lt; lia).
    rewrite (@unsafe_string_copy_overflows arg1) by lia. reflexivity.
Qed.

Lemma process_argument_copies_only_oversized_witness :
  ~ In "%"%char (chars "hello")
  /\ CApp.process_argument "hello"
     = Run [Stdout "Processing argument: "; Stdout "hello";
            Stdout (String LF "")] (Done tt).
Proof.
  assert (H : ~ In "%"%char (chars "hello")) by (simpl; intuition discriminate).
  split; [exact H|].
  exact (@process_argument_copies_only_oversized "hello" H).
Defined.

(** X3.  A line that is no command is only logged and copied. *)
Theorem unrecognised_line_is_only_echoed (e : env) (line : string)
    (Hp : ~ In "%"%char (chars line)) (Hl : (len line <= 99)%nat)
    (He : take 5 line <> "exec:") (Ha : take 6 line <> "alloc:")
    (Hf : take 5 line <> "file:") :
  CApp.process_line e line
  = Run [Stdout "Log: "; Stdout line; Stdout (String LF "");
         Stdout ("Copied: " ++ line ++ String LF "")]
        (Done tt).
Proof.
  unfold CApp.process_line.
  rewrite (@log_message_plain line Hp), (@unsafe_string_copy_fits line Hl).
  assert (E1 : (Libc.strncmp line "exec:" 5 =? 0) = false).
  { change 5%nat with (len "exec:").
    rewrite (@strncmp_prefix "exec:" line cstring_literal_exec).
    now apply String.eqb_neq. }
  assert (E2 : (Libc.strncmp line "alloc:" 6 =? 0) = false).
  { change 6%nat with (len "alloc:").
    rewrite (@strncmp_prefix "alloc:" line cstring_literal_alloc).
    now apply String.eqb_neq. }
  assert (E3 : (Libc.strncmp line "file:" 5 =? 0) = false).
  { change 5%nat with (len "file:").
    rewrite (@strncmp_prefix "file:" line cstring_literal_file).
    now apply String.eqb_neq. }
  rewrite E1, E2, E3. reflexivity.
Qed.

Lemma unrecognised_line_is_only_echoed_witness :
  CApp.process_line sample_env "hello"
  = Run [Stdout "Log: "; Stdout "hello"; Stdout (String LF "");
         Stdout ("Copied: hello" ++ String LF "")]
        (Done tt).
Proof.
  apply unrecognised_line_is_only_echoed.
  - simpl. intuition discriminate.
  - simpl. lia.
  - discriminate.
  - discriminate.
  - discriminate.
Defined.

Lemma execute_system_command_fits (command : string) :
  (len command <= 250)%nat ->
  CApp.execute_system_command command
  = Run [System ("echo " ++ command)] (Done tt).
Proof.
  intros H.
  unfold CApp.execute_system_command, Libc.sprintf, CApp.MAX_COMMAND_SIZE.
  cbn [Libc.format Ascii.eqb Bool.eqb option_map append].
  rewrite append_nil_r.
  change (len (String "e" (String "c" (String "h" (String "o" (String " " command))))))
    with (5 + len command)%nat.
  change (S (5 + len command) <=? 256)%nat with (len command <=? 250)%nat.
  replace (len command <=? 250)%nat with true by (symmetry; now apply Nat.leb_le).
  reflexivity.
Qed.

Lemma execute_system_command_overflows (command : string) :
  (250 < len command)%nat ->
  CApp.execute_system_command command
  = Run [] (Fault (OutOfBounds 256 (6 + len command))).
Proof.
  intros H.
  unfold CApp.execute_system_command, Libc.sprintf, CApp.MAX_COMMAND_SIZE.
  cbn [Libc.format Ascii.eqb Bool.eqb option_map append].
  rewrite append_nil_r.
  change (len (String "e" (String "c" (String "h" (String "o" (String " " command))))))
    with (5 + len command)%nat.
  change (S (5 + len command) <=? 256)%nat with (len command <=? 250)%nat.
  replace (len command <=? 250)%nat with false by (symmetry; apply Nat.leb_gt; lia).
  reflexivity.
Qed.

Lemma echoed_prefix (e : env) (line : string) (rest : run unit) :
  ~ In "%"%char (chars line) -> (len line <= 99)%nat ->
  (CApp.log_message line ;; CApp.unsafe_string_copy line ;; rest)
  = Run (echoed line ++ trace rest) (outcome rest).
Proof.
  intros Hp Hl.
  rewrite (@log_message_plain line Hp), (@unsafe_string_copy_fits line Hl).
  reflexivity.
Qed.

Lemma no_percent_append (a b : string) :
  ~ In "%"%char (chars a) -> ~ In "%"%char (chars b) ->
  ~ In "%"%char (chars (a ++ b)).
Proof.
  intros Ha Hb. rewrite chars_append. intros I.
  apply in_app_or in I. tauto.
Qed.

Ltac prefix_test lit k H :=
  match goal with
  | |- context [Libc.strncmp ?x lit k =? 0] =>
      let E := fresh "E" in
      assert (E : (Libc.strncmp x lit k =? 0)
                  = String.eqb (take k x) lit)
        by (change k with (len lit); apply strncmp_prefix; exact H);
      rewrite E; clear E
  end.

Lemma alloc_line_handler (e : env) (payload : string) :
  ~ In "%"%char (chars payload) -> (len payload <= 93)%nat ->
  CApp.process_line e ("alloc:" ++ payload)
  = Run (echoed ("alloc:" ++ payload)
         ++ trace (v <- Libc.atoi payload ;;
                   CApp.allocate_memory e (to_uint v)))
        (outcome (v <- Libc.atoi payload ;;
                  CApp.allocate_memory e (to_uint v))).
Proof.
  intros Hp Hl.
  assert (P : ~ In "%"%char (chars ("alloc:" ++ payload)))
    by (apply no_percent_append; [simpl; intuition discriminate | exact Hp]).
  assert (L : (len ("alloc:" ++ payload) <= 99)%nat)
    by (rewrite len_append; simpl; lia).
  unfold CApp.process_line.
  rewrite (@echoed_prefix e _ _ P L).
  prefix_test "exec:" 5%nat cstring_literal_exec.
  prefix_test "alloc:" 6%nat cstring_literal_alloc.
  prefix_test "file:" 5%nat cstring_literal_file.
  cbn [take skip append String.eqb Ascii.eqb Bool.eqb].
  cbv iota. now rewrite bind_ret, bind_unit_ret.
Qed.

(** X4.  A command line of main.c runs its own handler and no other. *)
Theorem command_line_runs_one_handler (e : env) (payload : string)
    (Hp : ~ In "%"%char (chars payload)) (Hl : (len payload <= 93)%nat) :
  CApp.process_line e ("exec:" ++ payload)
  = Run (echoed ("exec:" ++ payload) ++ [System ("echo " ++ payload)])
        (Done tt)
  /\ CApp.process_line e ("file:" ++ payload)
     = Run (echoed ("file:" ++ payload)
            ++ trace (CApp.read_config_file e payload))
           (outcome (CApp.read_config_file e payload))
  /\ CApp.process_line e ("alloc:" ++ payload)
     = Run (echoed ("alloc:" ++ payload)
            ++ trace (v <- Libc.atoi payload ;;
                      CApp.allocate_memory e (to_uint v)))
           (outcome (v <- Libc.atoi payload ;;
                     CApp.allocate_memory e (to_uint v))).
Proof.
  assert (Q : forall lit, ~ In "%"%char (chars lit) ->
                (len lit <= 6)%nat ->
                ~ In "%"%char (chars (lit ++ payload))
                /\ (len (lit ++ payload) <= 99)%nat).
  { intros lit N L. split; [now apply no_percent_append|].
    rewrite len_append. lia. }
  split; [|split]; unfold CApp.process_line.
  - destruct (Q "exec:") as [P L]; [simpl; intuition discriminate | simpl; lia |].
    rewrite (@echoed_prefix e _ _ P L).
    prefix_test "exec:" 5%nat cstring_literal_exec.
    prefix_test "alloc:" 6%nat cstring_literal_alloc.
    prefix_test "file:" 5%nat cstring_literal_file.
    cbn [take skip append String.eqb Ascii.eqb Bool.eqb].
    cbv iota. rewrite execute_system_command_fits by lia. reflexivity.
  - destruct (Q "file:") as [P L]; [simpl; intuition discriminate | simpl; lia |].
    rewrite (@echoed_prefix e _ _ P L).
    prefix_test "exec:" 5%nat cstring_literal_exec.
    prefix_test "alloc:" 6%nat cstring_literal_alloc.
    prefix_test "file:" 5%nat cstring_literal_file.
    cbn [take skip append String.eqb Ascii.eqb Bool.eqb].
    cbv iota. now rewrite !bind_ret.
  - now apply alloc_line_handler.
Qed.

Lemma command_line_runs_one_handler_witness :
  CApp.process_line sample_env ("exec:" ++ "ls")
  = Run (echoed ("exec:" ++ "ls") ++ [System ("echo " ++ "ls")]) (Done tt).
Proof.
  refine (proj1 (@command_line_runs_one_handler sample_env "ls" _ _)).
  - simpl. intuition discriminate.
  - simpl. lia.
Defined.

(** ** Input from the network in main.c *)

Lemma len_take (n : nat) (s : string) : len (take n s) = Nat.min n (len s).
Proof.
  revert s. induction n as [|n IH]; intros [|c s]; try reflexivity.
  cbn [take]. change (len (String c (take n s))) with (S (len (take n s))).
  change (len (String c s)) with (S (len s)). rewrite IH. reflexivity.
Qed.

Lemma len_skip (n : nat) (s : string) : len (skip n s) = (len s - n)%nat.
Proof.
  revert s. induction n as [|n IH]; intros [|c s]; try reflexivity.
  cbn [skip]. rewrite IH. reflexivity.
Qed.

Lemma take_all (n : nat) (s : string) : (len s <= n)%nat -> take n s = s.
Proof.
  revert s. induction n as [|n IH]; intros [|c s] H; try reflexivity.
  - unfold len in H. simpl in H. lia.
  - cbn [take]. rewrite IH; [reflexivity|]. unfold len in *. simpl in H. lia.
Qed.

Lemma format_received (buffer : string) :
  Libc.format ("Received: %s" ++ String LF "") [Libc.AStr buffer]
  = Some ("Received: " ++ buffer ++ String LF "").
Proof. reflexivity. Qed.

(** X5.  A message of 256 bytes or more overruns the 256-byte buffer of
    [handle_network_input] before anything is printed or run. *)
Theorem network_input_overruns_buffer (data : string)
    (H : (256 <= len data)%nat) :
  CApp.handle_network_input (Some data)
  = Run [] (Fault (OutOfBounds 256 (Nat.max 257 (Nat.min 1024 (len data))))).
Proof.
  unfold CApp.handle_network_input, Libc.recv, Libc.store_at.
  rewrite len_take.
  destruct (Nat.leb_spec (Nat.min 1024 (len data)) 256) as [L|L].
  - assert (E : Nat.min 1024 (len data) = 256%nat) by lia.
    rewrite E. cbv iota. rewrite bind_ret, len_take, E. reflexivity.
  - replace (Nat.max 257 (Nat.min 1024 (len data)))
      with (Nat.min 1024 (len data)) by lia.
    reflexivity.
Qed.

Lemma network_input_overruns_buffer_witness :
  CApp.handle_network_input (Some (replicate 256 "A"))
  = Run [] (Fault (OutOfBounds 256 257)).
Proof.
  apply (@network_input_overruns_buffer (replicate 256 "A")).
  apply Nat.leb_le. reflexivity.
Defined.

(** X6.  A message of 1 to 255 bytes is read as the C string in the buffer:
    it is printed, and when it starts with ["CMD:"] the rest goes to the
    shell, unless the message has 255 characters, whose command line
    overruns the 256-byte array of [execute_system_command]. *)
Theorem network_input_in_bounds (data : string)
    (H : (1 <= len data <= 255)%nat) :
  CApp.handle_network_input (Some data)
  = (if String.eqb (take 4 (Libc.c_str data)) "CMD:"
     then
       if (len (Libc.c_str data) <=? 254)%nat
       then Run [Stdout ("Received: " ++ Libc.c_str data ++ String LF "");
                 System ("echo " ++ skip 4 (Libc.c_str data))]
                (Done tt)
       else Run [Stdout ("Received: " ++ Libc.c_str data ++ String LF "")]
                (Fault (OutOfBounds 256 257))
     else Run [Stdout ("Received: " ++ Libc.c_str data ++ String LF "")]
              (Done tt)).
Proof.
  unfold CApp.handle_network_input, Libc.recv, Libc.store_at, Libc.printf.
  rewrite take_all by lia.
  replace (len data <=? 256)%nat with true by (symmetry; apply Nat.leb_le; lia).
  rewrite bind_ret.
  replace (0 <? len data)%nat with true by (symmetry; apply Nat.ltb_lt; lia).
  replace (len data <? 256)%nat with true by (symmetry; apply Nat.ltb_lt; lia).
  rewrite bind_ret, format_received.
  pose proof (len_c_str data) as B.
  assert (E : (Libc.strncmp (Libc.c_str data) "CMD:" 4 =? 0)
              = String.eqb (take 4 (Libc.c_str data)) "CMD:")
    by (change 4%nat with (len "CMD:"); apply strncmp_prefix;
        exact cstring_literal_cmd).
  rewrite E. clear E.
  destruct (String.eqb_spec (take 4 (Libc.c_str data)) "CMD:") as [T|T];
    [|reflexivity].
  assert (L4 : (4 <= len (Libc.c_str data))%nat).
  { assert (len (take 4 (Libc.c_str data)) = 4%nat) by now rewrite T.
    rewrite len_take in *. lia. }
  destruct (Nat.leb_spec (len (Libc.c_str data)) 254) as [L|L].
  - rewrite execute_system_command_fits by (rewrite len_skip; lia).
    reflexivity.
  - rewrite execute_system_command_overflows by (rewrite len_skip; lia).
    rewrite len_skip.
    replace (len (Libc.c_str data)) with 255%nat by lia. reflexivity.
Qed.

Lemma network_input_in_bounds_witness :
  CApp.handle_network_input (Some "CMD:date")
  = Run [Stdout ("Received: CMD:date" ++ String LF ""); System "echo date"]
        (Done tt).
Proof.
  apply (@network_input_in_bounds "CMD:date").
  split; apply Nat.leb_le; reflexivity.
Defined.

(** ** The heap and the global variables of main.c *)

Lemma size_of_release (b : nat) (l : list (nat * nat)) :
  Mem.size_of b (Mem.release b l) = None.
Proof.
  unfold Mem.release. induction l as [|[q n] l IH]; simpl; [reflexivity|].
  destruct (Nat.eqb b q) eqn:E; simpl; [exact IH|].
  now rewrite E.
Qed.



(** X7.  After [free_global_buffer] the pointer still names the released
    block: the next [use_global_buffer] stores into it, and a second
    [free_global_buffer] releases it again. *)
Theorem freed_buffer_stays_reachable (s : CApp.state) (b n : nat)
    (Hp : CApp.global_buffer s = Some b)
    (Hl : Mem.size_of b (Mem.live (CApp.mem s)) = Some n) :
  (exists s',
     CApp.free_global_buffer s = SRun [Release (Z.of_nat n)] (Ok tt s')
     /\ CApp.global_buffer s' = Some b
     /\ Mem.size_of b (Mem.live (CApp.mem s')) = None)
  /\ sout ((CApp.free_global_buffer ;;; CApp.use_global_buffer) s)
     = Hazard (UseAfterFree b)
  /\ sout ((CApp.free_global_buffer ;;; CApp.free_global_buffer) s)
     = Hazard (DoubleFree b).
Proof.
  assert (F : CApp.free_global_buffer s
              = SRun [Release (Z.of_nat n)]
                  (Ok tt
                     {| CApp.vars := CApp.vars s;
                        CApp.global_buffer := CApp.global_buffer s;
                        CApp.shared_counter := CApp.shared_counter s;
                        CApp.mem :=
                          Mem.Heap (Mem.next (CApp.mem s))
                            (Mem.release b (Mem.live (CApp.mem s))) |})).
  { unfold CApp.free_global_buffer, sbind, sget, CApp.free_block. simpl.
    rewrite Hp, Hl. reflexivity. }
  split; [|split].
  - eexists. split; [exact F|]. simpl. split; [exact Hp | apply size_of_release].
  - unfold sbind at 1. rewrite F. cbn [sout strace].
    unfold CApp.use_global_buffer, sbind, sget, CApp.strcpy_block. simpl.
    rewrite Hp. simpl. now rewrite size_of_release.
  - unfold sbind at 1. rewrite F. cbn [sout strace].
    unfold CApp.free_global_buffer, sbind, sget, CApp.free_block. simpl.
    rewrite Hp. simpl. now rewrite size_of_release.
Qed.

Lemma freed_buffer_stays_reachable_witness :
  sout ((CApp.free_global_buffer ;;; CApp.use_global_buffer)
          {| CApp.vars := CApp.initial_globals;
             CApp.global_buffer := Some O;
             CApp.shared_counter := 0;
             CApp.mem := Mem.Heap 1 [(O, 256%nat)] |})
  = Hazard (UseAfterFree O).
Proof.
  refine (proj1 (proj2 (@freed_buffer_stays_reachable _ O 256%nat _ _)));
    reflexivity.
Defined.



Lemma format_debug (d : string) :
  Libc.format ("Debug mode enabled with value: %s" ++ String LF "") [Libc.AStr d]
  = Some ("Debug mode enabled with value: " ++ d ++ String LF "").
Proof. reflexivity. Qed.

(** X9.  DEBUG holding the decimal numeral of [n]: [debug_mode] becomes [n]
    and the value is reported, except that 0 reports nothing and a number
    above INT_MAX is undefined in atoi; the password is left alone. *)
Theorem debug_value_is_parsed (n : N) (s : CApp.state) :
  CApp.read_debug (Some (decimal (Z.of_N n))) s
  = (if INT_MAX <? Z.of_N n
     then SRun [] (Hazard (Plain (Unrepresentable (Z.of_N n))))
     else SRun (if Z.of_N n =? 0 then []
                else [Stdout ("Debug mode enabled with value: "
                              ++ decimal (Z.of_N n) ++ String LF "")])
               (Ok tt
                   {| CApp.vars :=
                        {| CApp.admin_password := CApp.admin_password (CApp.vars s);
                           CApp.debug_mode := Z.of_N n |};
                      CApp.global_buffer := CApp.global_buffer s;
                      CApp.shared_counter := CApp.shared_counter s;
                      CApp.mem := CApp.mem s |})).
Proof.
  unfold CApp.read_debug, Libc.atoi. rewrite subject_decimal.
  replace (INT_MIN <=? Z.of_N n) with true
    by (symmetry; apply Z.leb_le; unfold INT_MIN; lia).
  cbn [andb].
  destruct (Z.ltb_spec INT_MAX (Z.of_N n)) as [L|L].
  - replace (Z.of_N n <=? INT_MAX) with false by (symmetry; apply Z.leb_gt; lia).
    reflexivity.
  - replace (Z.of_N n <=? INT_MAX) with true by (symmetry; apply Z.leb_le; lia).
    unfold sbind, lift, sget, sput, ret, Libc.printf. cbn [outcome trace sout strace].
    destruct (Z.of_N n =? 0).
    + reflexivity.
    + rewrite format_debug. reflexivity.
Qed.

(** ** The command lines of main.cpp *)

Lemma logMessage_plain (line : string) :
  ~ In "%"%char (chars line) ->
  CppApp.logMessage line
  = Run [Stdout (Libc.c_str line); Stdout (String LF "")] (Done tt).
Proof.
  intros H. unfold CppApp.logMessage, Libc.printf.
  rewrite (format_plain (Libc.c_str line) [] (no_percent_c_str line H)).
  reflexivity.
Qed.

Lemma substr_front (s : string) (n : nat) :
  CppApp.substr s 0 n = ret (take n s).
Proof. unfold CppApp.substr. destruct s; reflexivity. Qed.

(** X10.  A line that is no command is only logged: its C string, which
    ends at the first NUL of the line, and a newline are written. *)
Theorem unrecognised_line_is_only_logged
    (e : env) (server : CppApp.WebServer) (line : string)
    (Hp : ~ In "%"%char (chars line))
    (He : take 5 line <> "exec:") (Hf : take 5 line <> "file:")
    (Ha : take 6 line <> "alloc:") (Hd : take 3 line <> "db:") :
  CppApp.process_line e server line
  = Run [Stdout (Libc.c_str line); Stdout (String LF "")] (Done tt).
Proof.
  unfold CppApp.process_line.
  rewrite (@logMessage_plain line Hp), !substr_front, !bind_ret.
  apply String.eqb_neq in He, Hf, Ha, Hd.
  rewrite He, Hf, Ha, Hd. reflexivity.
Qed.

Lemma unrecognised_line_is_only_logged_witness :
  CppApp.process_line sample_env CppApp.new_WebServer "hello"
  = Run [Stdout "hello"; Stdout (String LF "")] (Done tt).
Proof.
  apply unrecognised_line_is_only_logged.
  - simpl. intuition discriminate.
  - discriminate.
  - discriminate.
  - discriminate.
  - discriminate.
Defined.

Lemma logged_prefix (line : string) (rest : run unit) :
  ~ In "%"%char (chars line) ->
  (CppApp.logMessage line ;; rest)
  = Run ([Stdout (Libc.c_str line); Stdout (String LF "")] ++ trace rest)
        (outcome rest).
Proof. intros H. rewrite (@logMessage_plain line H). reflexivity. Qed.

Lemma substr_from_literal (lit payload : string) :
  CppApp.substr_from (lit ++ payload) (len lit) = ret payload.
Proof.
  unfold CppApp.substr_from.
  replace (len lit <=? len (lit ++ payload))%nat with true
    by (symmetry; apply Nat.leb_le; rewrite len_append; lia).
  f_equal. induction lit as [|c lit IH]; [reflexivity | exact IH].
Qed.

Lemma alloc_line_member
    (e : env) (server : CppApp.WebServer) (payload : string) :
  ~ In "%"%char (chars payload) ->
  CppApp.process_line e server ("alloc:" ++ payload)
  = Run ([Stdout ("alloc:" ++ Libc.c_str payload); Stdout (String LF "")]
         ++ trace (size <- CppApp.stoull payload ;;
                   CppApp.allocateBuffer e size))
        (outcome (size <- CppApp.stoull payload ;;
                  CppApp.allocateBuffer e size)).
Proof.
  intros Hp. unfold CppApp.process_line.
  rewrite logged_prefix
    by (apply no_percent_append; [simpl; intuition discriminate | exact Hp]).
  rewrite !substr_front, !bind_ret.
  cbn [take append String.eqb Ascii.eqb Bool.eqb].
  change 6%nat with (len "alloc:").
  change (String "a" (String "l" (String "l" (String "o" (String "c" (String ":" payload))))))
    with ("alloc:" ++ payload).
  rewrite substr_from_literal, !bind_ret, bind_unit_ret. reflexivity.
Qed.

(** X11.  A command line of main.cpp runs its own handler and no other,
    for a payload of any length.  The line is logged up to its first
    NUL, and [exec:] hands the shell the payload up to its first NUL. *)
Theorem command_line_runs_one_member
    (e : env) (server : CppApp.WebServer) (payload : string)
    (Hp : ~ In "%"%char (chars payload)) :
  CppApp.process_line e server ("exec:" ++ payload)
  = Run [Stdout ("exec:" ++ Libc.c_str payload); Stdout (String LF "");
         System ("echo " ++ Libc.c_str payload)]
        (Done tt)
  /\ CppApp.process_line e server ("file:" ++ payload)
     = Run ([Stdout ("file:" ++ Libc.c_str payload); Stdout (String LF "")]
            ++ trace (content <- CppApp.readFile e payload ;;
                      CppApp.cout ("File content: " ++ content ++ CppApp.endl)))
           (outcome (content <- CppApp.readFile e payload ;;
                     CppApp.cout ("File content: " ++ content ++ CppApp.endl)))
  /\ CppApp.process_line e server ("alloc:" ++ payload)
     = Run ([Stdout ("alloc:" ++ Libc.c_str payload); Stdout (String LF "")]
            ++ trace (size <- CppApp.stoull payload ;;
                      CppApp.allocateBuffer e size))
           (outcome (size <- CppApp.stoull payload ;;
                     CppApp.allocateBuffer e size))
  /\ CppApp.process_line e server ("db:" ++ payload)
     = Run ([Stdout ("db:" ++ Libc.c_str payload); Stdout (String LF "")]
            ++ trace (results <- CppApp.searchUsers (CppApp.db server) payload ;;
                      CppApp.print_found results))
           (outcome (results <- CppApp.searchUsers (CppApp.db server) payload ;;
                     CppApp.print_found results)).
Proof.
  assert (Q : forall lit, ~ In "%"%char (chars lit) ->
                ~ In "%"%char (chars (lit ++ payload)))
    by (intros lit N; now apply no_percent_append).
  repeat split; unfold CppApp.process_line.
  - rewrite logged_prefix by (apply Q; simpl; intuition discriminate).
    rewrite !substr_front, !bind_ret.
    cbn [take append String.eqb Ascii.eqb Bool.eqb].
    change 5%nat with (len "exec:").
    change (String "e" (String "x" (String "e" (String "c" (String ":" payload)))))
      with ("exec:" ++ payload).
    rewrite substr_from_literal, !bind_ret. reflexivity.
  - rewrite logged_prefix by (apply Q; simpl; intuition discriminate).
    rewrite !substr_front, !bind_ret.
    cbn [take append String.eqb Ascii.eqb Bool.eqb].
    change 5%nat with (len "file:").
    change (String "f" (String "i" (String "l" (String "e" (String ":" payload)))))
      with ("file:" ++ payload).
    rewrite substr_from_literal, !bind_ret, bind_unit_ret. reflexivity.
  - now apply alloc_line_member.
  - rewrite logged_prefix by (apply Q; simpl; intuition discriminate).
    rewrite !substr_front, !bind_ret.
    cbn [take append String.eqb Ascii.eqb Bool.eqb].
    change 3%nat with (len "db:").
    change (String "d" (String "b" (String ":" payload)))
      with ("db:" ++ payload).
    rewrite substr_from_literal, !bind_ret. reflexivity.
Qed.

Lemma command_line_runs_one_member_witness :
  ~ In "%"%char (chars "ls")
  /\ CppApp.process_line sample_env CppApp.new_WebServer ("exec:" ++ "ls")
     = Run [Stdout ("exec:" ++ "ls"); Stdout (String LF "");
            System ("echo " ++ "ls")]
           (Done tt).
Proof.
  assert (H : ~ In "%"%char (chars "ls")) by (simpl; intuition discriminate).
  split; [exact H|].
  exact (proj1 (@command_line_runs_one_member sample_env CppApp.new_WebServer
                  "ls" H)).
Defined.

(** ** Commands for the shell *)

(** C1, as the code has it.  On the line [exec:] with a payload, both
    programs append the payload to ["echo "] and hand the resulting text
    to [system], that is to the shell, as one command line: the payload
    is not an argument of its own, and the shell interprets it.  main.cpp
    does so for the payload up to its first NUL, of any length; main.c
    for a payload of at most 94 characters, which the line must not
    exceed to pass the copy before.  [execute_system_command] itself
    builds the text in a 256-byte array, which a payload of more than 250
    characters overruns. *)
Theorem exec_line_goes_to_the_shell
    (e : env) (server : CppApp.WebServer) (payload : string)
    (Hp : ~ In "%"%char (chars payload)) :
  CppApp.process_line e server ("exec:" ++ payload)
  = Run [Stdout ("exec:" ++ Libc.c_str payload); Stdout (String LF "");
         System ("echo " ++ Libc.c_str payload)]
        (Done tt)
  /\ ((len payload <= 94)%nat ->
      CApp.process_line e ("exec:" ++ payload)
      = Run (echoed ("exec:" ++ payload) ++ [System ("echo " ++ payload)])
            (Done tt))
  /\ CppApp.executeSystemCommand payload
     = Run [System ("echo " ++ Libc.c_str payload)] (Done tt)
  /\ CApp.execute_system_command payload
     = (if (len payload <=? 250)%nat
        then Run [System ("echo " ++ payload)] (Done tt)
        else Run [] (Fault (OutOfBounds 256 (6 + len payload)))).
Proof.
  assert (P : ~ In "%"%char (chars ("exec:" ++ payload)))
    by (apply no_percent_append; [simpl; intuition discriminate | exact Hp]).
  split; [|split; [|split]].
  - unfold CppApp.process_line. rewrite logged_prefix by exact P.
    rewrite !substr_front, !bind_ret.
    cbn [take append String.eqb Ascii.eqb Bool.eqb].
    change 5%nat with (len "exec:").
    change (String "e" (String "x" (String "e" (String "c" (String ":" payload)))))
      with ("exec:" ++ payload).
    rewrite substr_from_literal, !bind_ret. reflexivity.
  - intros Hl.
    assert (L : (len ("exec:" ++ payload) <= 99)%nat)
      by (rewrite len_append; simpl; lia).
    unfold CApp.process_line. rewrite (@echoed_prefix e _ _ P L).
    prefix_test "exec:" 5%nat cstring_literal_exec.
    prefix_test "alloc:" 6%nat cstring_literal_alloc.
    prefix_test "file:" 5%nat cstring_literal_file.
    cbn [take skip append String.eqb Ascii.eqb Bool.eqb].
    cbv iota. rewrite execute_system_command_fits by lia. reflexivity.
  - reflexivity.
  - destruct (Nat.leb_spec (len payload) 250) as [L|L].
    + now apply execute_system_command_fits.
    + now apply execute_system_command_overflows.
Qed.

Lemma exec_line_goes_to_the_shell_witness :
  ~ In "%"%char (chars "hello; rm -rf /")
  /\ (len "hello; rm -rf /" <= 94)%nat
  /\ CppApp.process_line sample_env CppApp.new_WebServer
       ("exec:" ++ "hello; rm -rf /")
     = Run [Stdout "exec:hello; rm -rf /"; Stdout (String LF "");
            System "echo hello; rm -rf /"]
           (Done tt)
  /\ CApp.process_line sample_env ("exec:" ++ "hello; rm -rf /")
     = Run (echoed "exec:hello; rm -rf /" ++ [System "echo hello; rm -rf /"])
           (Done tt).
Proof.
  assert (H : ~ In "%"%char (chars "hello; rm -rf /"))
    by (simpl; intuition discriminate).
  assert (L : (len "hello; rm -rf /" <= 94)%nat)
    by (apply Nat.leb_le; reflexivity).
  split; [exact H|]. split; [exact L|].
  destruct (@exec_line_goes_to_the_shell sample_env CppApp.new_WebServer
              "hello; rm -rf /" H) as [P [C _]].
  split; [exact P | exact (C L)].
Defined.

(** C1, as stated, fails: for the line ["exec:hello; rm -rf /"] the only
    process the programs create is the shell with the command line
    ["echo hello; rm -rf /"].  That line is a list of two commands: echo
    gets ["hello"] alone and prints it, and [rm -rf /] is the second
    command. *)
Lemma shell_injection_counterexample :
  systems_of (trace (CApp.process_line sample_env "exec:hello; rm -rf /"))
  = ["echo hello; rm -rf /"]
  /\ systems_of (trace (CppApp.process_line sample_env CppApp.new_WebServer
                          "exec:hello; rm -rf /"))
     = ["echo hello; rm -rf /"]
  /\ Sh.system_argv "echo hello; rm -rf /" = ["sh"; "-c"; "echo hello; rm -rf /"]
  /\ Sh.commands "echo hello; rm -rf /"
     = Some [["echo"; "hello"]; ["rm"; "-rf"; "/"]]
  /\ Sh.echo_prints ["echo"; "hello"] = Some ("hello" ++ String LF "")
  /\ "hello" ++ String LF "" <> "hello; rm -rf /" ++ String LF "".
Proof. repeat split; try reflexivity. discriminate. Qed.

(** ** The user list of main.cpp, continued *)

Lemma found_empty_query (u : string) : found "" u = true.
Proof. unfold found. destruct u; reflexivity. Qed.

Lemma filter_all {A} (f : A -> bool) (l : list A) :
  (forall x, f x = true) -> filter f l = l.
Proof.
  intros H. induction l as [|x l IH]; simpl; [reflexivity|].
  now rewrite H, IH.
Qed.

Lemma searchUsers_run (d : CppApp.VulnerableDatabase) (query : string) :
  CppApp.searchUsers d query
  = Run [Stdout ("Executing SQL: " ++ CppApp.sql_of query ++ CppApp.endl)]
        (Done (filter (found query) (CppApp.users d))).
Proof.
  unfold CppApp.searchUsers, CppApp.cout, emit, bind, ret. simpl.
  now rewrite search_loop_filter.
Qed.

Lemma searchUsers_results (d : CppApp.VulnerableDatabase) (query : string) :
  outcome (CppApp.searchUsers d query)
  = Done (filter (found query) (CppApp.users d)).
Proof. now rewrite searchUsers_run. Qed.

(** X12.  A user added with [addUser] is found by exactly the queries that
    occur in the name, after the users found before; the empty query
    finds every user. *)
Theorem added_user_is_searchable
    (d : CppApp.VulnerableDatabase) (username query : string) :
  outcome (CppApp.searchUsers (CppApp.addUser d username) query)
  = Done (filter (found query) (CppApp.users d)
          ++ (if found query username then [username] else []))%list
  /\ (found query username = true <-> occurs_in query username)
  /\ outcome (CppApp.searchUsers d "") = Done (CppApp.users d).
Proof.
  split; [|split].
  - rewrite searchUsers_results. unfold CppApp.addUser. simpl.
    rewrite filter_app. simpl. now destruct (found query username).
  - apply found_occurs.
  - rewrite searchUsers_results. f_equal. apply filter_all.
    apply found_empty_query.
Qed.

(** X13.  [getUserData] after [addUser]: the new user is at the index that
    was the number of users, and every index that was served before is
    served as before. *)
Theorem added_user_is_last
    (d : CppApp.VulnerableDatabase) (username : string) (index : Z)
    (Hn : Z.of_nat (List.length (CppApp.users d)) <= INT_MAX) :
  CppApp.getUserData (CppApp.addUser d username)
    (Z.of_nat (List.length (CppApp.users d)))
  = ret (Some username)
  /\ (0 <= index < Z.of_nat (List.length (CppApp.users d)) ->
      CppApp.getUserData (CppApp.addUser d username) index
      = CppApp.getUserData d index).
Proof.
  unfold INT_MAX in Hn.
  assert (M : forall i, 0 <= i <= 2 ^ 31 - 1 -> to_size_t i = i).
  { intros i Hi. unfold to_size_t, SIZE_MOD. apply Z.mod_small. lia. }
  unfold CppApp.getUserData, CppApp.addUser. simpl CppApp.users.
  rewrite length_app. simpl List.length. split.
  - rewrite M by lia.
    replace (0 <=? Z.of_nat (List.length (CppApp.users d))) with true
      by (symmetry; apply Z.leb_le; lia).
    replace (Z.of_nat (List.length (CppApp.users d))
             <? Z.of_nat (List.length (CppApp.users d) + 1)) with true
      by (symmetry; apply Z.ltb_lt; lia).
    simpl andb. cbv iota. rewrite Nat2Z.id.
    rewrite nth_error_app2 by lia. rewrite Nat.sub_diag. reflexivity.
  - intros Hi. rewrite M by lia.
    replace (0 <=? index) with true by (symmetry; apply Z.leb_le; lia).
    replace (index <? Z.of_nat (List.length (CppApp.users d) + 1)) with true
      by (symmetry; apply Z.ltb_lt; lia).
    replace (index <? Z.of_nat (List.length (CppApp.users d))) with true
      by (symmetry; apply Z.ltb_lt; lia).
    simpl andb. cbv iota.
    rewrite nth_error_app1 by lia.
    destruct (nth_error (CppApp.users d) (Z.to_nat index)) eqn:E; [reflexivity|].
    apply nth_error_None in E. lia.
Qed.

Lemma added_user_is_last_witness :
  CppApp.getUserData (CppApp.addUser (CppApp.Database ["alice"]) "bob") 1
  = ret (Some "bob").
Proof.
  refine (proj1 (@added_user_is_last (CppApp.Database ["alice"]) "bob" 0 _)).
  unfold INT_MAX. simpl. lia.
Defined.

Lemma print_found_output (results : list string) :
  CppApp.print_found results
  = Run (map (fun r => Stdout ("Found user: " ++ r ++ CppApp.endl)) results)
        (Done tt).
Proof.
  induction results as [|r rs IH]; [reflexivity|].
  cbn [CppApp.print_found map]. unfold CppApp.cout. rewrite bind_emit, IH.
  reflexivity.
Qed.

(** X14.  The line [db:] with a query is logged up to its first NUL;
    then the SQL text with the whole query is printed, and then one line
    per stored user that contains the whole query, in stored order. *)
Theorem db_line_lists_matches
    (e : env) (server : CppApp.WebServer) (query : string)
    (Hp : ~ In "%"%char (chars query)) :
  CppApp.process_line e server ("db:" ++ query)
  = Run ([Stdout ("db:" ++ Libc.c_str query); Stdout (String LF "");
          Stdout ("Executing SQL: " ++ CppApp.sql_of query ++ CppApp.endl)]
         ++ map (fun r => Stdout ("Found user: " ++ r ++ CppApp.endl))
                (filter (found query) (CppApp.users (CppApp.db server))))
        (Done tt).
Proof.
  unfold CppApp.process_line.
  rewrite logged_prefix
    by (apply no_percent_append; [simpl; intuition discriminate | exact Hp]).
  rewrite !substr_front, !bind_ret.
  cbn [take append String.eqb Ascii.eqb Bool.eqb].
  change 3%nat with (len "db:").
  change (String "d" (String "b" (String ":" query))) with ("db:" ++ query).
  rewrite substr_from_literal, !bind_ret.
  rewrite searchUsers_run, bind_done, print_found_output. reflexivity.
Qed.

Lemma db_line_lists_matches_witness :
  ~ In "%"%char (chars "li")
  /\ CppApp.process_line sample_env
       (CppApp.Server "t" (CppApp.Database ["alice"; "bob"; "olivia"]))
       ("db:" ++ "li")
     = Run [Stdout "db:li"; Stdout (String LF "");
            Stdout ("Executing SQL: SELECT * FROM users WHERE name = 'li'"
                    ++ String LF "");
            Stdout ("Found user: alice" ++ String LF "");
            Stdout ("Found user: olivia" ++ String LF "")]
           (Done tt).
Proof.
  assert (H : ~ In "%"%char (chars "li")) by (simpl; intuition discriminate).
  split; [exact H|].
  exact (@db_line_lists_matches sample_env
           (CppApp.Server "t" (CppApp.Database ["alice"; "bob"; "olivia"]))
           "li" H).
Defined.

(** ** Arguments of main.cpp *)

(** X15.  On argv[1], main.cpp copies the arguments of more than 100
    characters into a 256-byte array: up to 255 characters fit, longer
    ones overrun it. *)
Theorem process_argument_copies_long_arguments (arg1 : string)
    (H : ~ In "%"%char (chars arg1)) :
  CppApp.process_argument arg1
  = (if (len arg1 <=? 100)%nat
     then Run [Stdout "Processing argument: "; Stdout arg1; Stdout CppApp.endl]
              (Done tt)
     else if (len arg1 <=? 255)%nat
     then Run [Stdout "Processing argument: "; Stdout arg1; Stdout CppApp.endl;
               Stdout ("Processed: " ++ arg1 ++ CppApp.endl)]
              (Done tt)
     else Run [Stdout "Processing argument: "; Stdout arg1; Stdout CppApp.endl]
              (Fault (OutOfBounds 256 (S (len arg1))))).
Proof.
  unfold CppApp.process_argument, Libc.printf, CppApp.cout,
    CppApp.processUserInput, Libc.strcpy, Libc.strcpy_stores.
  rewrite (format_plain arg1 [] H).
  change (S (len arg1) <=? 256)%nat with (len arg1 <=? 255)%nat.
  destruct (Nat.leb_spec (len arg1) 100) as [L|L].
  - replace (100 <? len arg1)%nat with false
      by (symmetry; apply Nat.ltb_ge; lia).
    reflexivity.
  - replace (100 <? len arg1)%nat with true
      by (symmetry; apply Nat.ltb_lt; lia).
    destruct (len arg1 <=? 255)%nat; reflexivity.
Qed.

Lemma process_argument_copies_long_arguments_witness :
  ~ In "%"%char (chars (replicate 101 "A"))
  /\ CppApp.process_argument (replicate 101 "A")
     = Run [Stdout "Processing argument: "; Stdout (replicate 101 "A");
            Stdout CppApp.endl;
            Stdout ("Processed: " ++ replicate 101 "A" ++ CppApp.endl)]
           (Done tt).
Proof.
  assert (H : ~ In "%"%char (chars (replicate 101 "A"))).
  { intros I. assert (F : forall n, In "%"%char (chars (replicate n "A")) -> False).
    { induction n as [|n IH]; simpl; [tauto|]. intros [E|E]; [discriminate | auto]. }
    exact (F _ I). }
  split; [exact H|].
  exact (@process_argument_copies_long_arguments (replicate 101 "A") H).
Defined.

(** ** class LeakyResource *)

Lemma stdout_of_pieces (pieces : list string) :
  stdout_of (map Stdout pieces) = join pieces.
Proof. induction pieces as [|p ps IH]; simpl; [reflexivity | now rewrite IH]. Qed.

Lemma leaky_lines_total (fuel : nat) (stream : string) :
  cstring stream -> (len stream <= fuel)%nat ->
  exists pieces : list string,
    join pieces = stream
    /\ Forall (fun p => (1 <= len p <= 1023)%nat) pieces
    /\ CppApp.leaky_lines fuel stream = Run (map Stdout pieces) (Done "").
Proof.
  revert stream. induction fuel as [|fuel IH]; intros stream C L.
  - destruct stream; [|simpl in L; lia].
    exists []. repeat split. constructor.
  - destruct stream as [|c s].
    { exists []. repeat split. constructor. }
    destruct (fgets_take_spec 1023 (String c s)) as [E [B P]].
    cbn [CppApp.leaky_lines Libc.fgets]. change (1024 - 1)%nat with 1023%nat.
    destruct (Libc.fgets_take 1023 (String c s)) as [l rest]. simpl fst in *.
    simpl snd in *.
    assert (0 < len l)%nat by (apply P; [lia | congruence]).
    assert (Lr : (len rest <= fuel)%nat).
    { assert (len (l ++ rest) = len (String c s)) by now rewrite E.
      rewrite len_append in *. simpl in *. unfold len in *. simpl in *. lia. }
    rewrite <- E in C. apply cstring_append in C. destruct C as [Cl Cr].
    destruct (IH rest Cr Lr) as [pieces [J [F R]]].
    exists (l :: pieces). split; [simpl; now rewrite J|]. split.
    + constructor; [lia | assumption].
    + unfold CppApp.cout. rewrite (@c_str_cstring l Cl), bind_emit, R.
      reflexivity.
Qed.

(** X16.  A [LeakyResource] on an existing text file prints the whole file
    when [process] is called, and leaves the file open: the run opens the
    file, writes, and does nothing else.  A second [process] finds the
    file at its end and prints nothing. *)
Theorem leaky_resource_prints_and_never_closes
    (e : env) (filename content : string)
    (Hf : fs e filename = Some content) (Hc : cstring content) :
  let run1 := r <- CppApp.new_LeakyResource e filename ;; CppApp.process r in
  outcome run1 = Done {| CppApp.file_handle := Some "" |}
  /\ stdout_of (trace run1) = content
  /\ Forall (fun ev => ev = Open filename \/ is_output ev) (trace run1)
  /\ CppApp.process {| CppApp.file_handle := Some "" |}
     = ret {| CppApp.file_handle := Some "" |}.
Proof.
  destruct (@leaky_lines_total (len content) content Hc (le_n _))
    as [pieces [J [F R]]].
  assert (E : (r <- CppApp.new_LeakyResource e filename ;; CppApp.process r)
              = Run (Open filename :: map Stdout pieces)
                    (Done {| CppApp.file_handle := Some "" |})).
  { change (CppApp.new_LeakyResource e filename)
      with (Run [Open filename] (Done {| CppApp.file_handle := fs e filename |})).
    rewrite bind_done. unfold CppApp.process. cbn [CppApp.file_handle].
    rewrite Hf, R, bind_done. simpl. now rewrite app_nil_r. }
  cbv zeta. rewrite E. cbn [trace outcome]. repeat split.
  - simpl. now rewrite stdout_of_pieces.
  - constructor; [now left|].
    clear. induction pieces as [|p ps IH]; simpl; constructor; [now right | exact IH].
Qed.

Lemma leaky_resource_prints_and_never_closes_witness :
  stdout_of (trace (r <- CppApp.new_LeakyResource sample_env "../../etc/passwd" ;;
                    CppApp.process r))
  = "root:x:0:0" ++ String LF "".
Proof.
  refine (proj1 (proj2 (@leaky_resource_prints_and_never_closes
                          sample_env "../../etc/passwd"
                          ("root:x:0:0" ++ String LF "") _ _))).
  - reflexivity.
  - unfold cstring, NUL. simpl. intuition discriminate.
Defined.


(** ** class VulnerableContainer *)


Lemma lookup_in (p : nat) (l : list (nat * string)) (v : string) :
  CppApp.lookup p l = Some v -> In p (map fst l).
Proof.
  induction l as [|[q w] l IH]; simpl; [discriminate|].
  destruct (Nat.eqb_spec p q) as [->|N]; [now left | right; now apply IH].
Qed.

Lemma destroy_all_fresh (st : CppApp.store) (ps : list nat) :
  CppApp.fresh (fold_right CppApp.destroy st ps) = CppApp.fresh st.
Proof. induction ps as [|p ps IH]; simpl; [reflexivity | exact IH]. Qed.

Lemma destroy_all_filter (st : CppApp.store) (ps : list nat) :
  CppApp.objects (fold_right CppApp.destroy st ps)
  = filter (fun o : nat * string =>
              negb (existsb (fun q => Nat.eqb q (fst o)) ps))
           (CppApp.objects st).
Proof.
  induction ps as [|p ps IH]; simpl.
  - symmetry. now apply filter_all.
  - rewrite IH. generalize (CppApp.objects st) as l.
    induction l as [|o l IHl]; simpl; [reflexivity|].
    destruct (existsb (fun q => Nat.eqb q (fst o)) ps); simpl.
    + rewrite IHl. now rewrite orb_true_r.
    + rewrite orb_false_r.
      destruct (Nat.eqb p (fst o)); simpl; now rewrite IHl.
Qed.

Lemma destroy_all_objects (st : CppApp.store) (ps : list nat) :
  Forall (fun o : nat * string => In (fst o) ps) (CppApp.objects st) ->
  CppApp.objects (fold_right CppApp.destroy st ps) = [].
Proof.
  intros H. rewrite destroy_all_filter.
  induction H as [|o l I _ IH]; simpl; [reflexivity|].
  replace (existsb (fun q => Nat.eqb q (fst o)) ps) with true; [exact IH|].
  symmetry. apply existsb_exists. exists (fst o).
  split; [exact I | apply Nat.eqb_refl].
Qed.

Lemma addItem_represents (c : CppApp.VulnerableContainer)
    (held : list string) (item : string) :
  represents c held ->
  exists c', CppApp.addItem item c = SRun [] (Ok tt c')
             /\ represents c' (held ++ [item]).
Proof.
  intros [M F]. eexists. split; [reflexivity|].
  unfold represents. cbn [CppApp.items CppApp.owned CppApp.objects CppApp.fresh].
  split.
  - rewrite !map_app. cbn [map CppApp.lookup]. rewrite Nat.eqb_refl.
    f_equal. rewrite <- M. apply map_ext_in. intros p I.
    destruct (Nat.eqb_spec p (CppApp.fresh (CppApp.owned c))) as [E|N];
      [|reflexivity].
    exfalso.
    assert (S : exists v, CppApp.lookup p (CppApp.objects (CppApp.owned c)) = Some v).
    { assert (In (CppApp.lookup p (CppApp.objects (CppApp.owned c)))
                 (map Some held)).
      { rewrite <- M. now apply (in_map (fun q => CppApp.lookup q _)). }
      apply in_map_iff in H. destruct H as [v [E' _]]. now exists v. }
    destruct S as [v S]. apply lookup_in in S. apply in_map_iff in S.
    destruct S as [o [E' Io]]. rewrite Forall_forall in F.
    destruct (F o Io) as [B _]. lia.
  - constructor.
    + simpl. split; [lia | apply in_or_app; right; now left].
    + eapply Forall_impl; [|exact F]. simpl. intros o [B I].
      split; [lia | apply in_or_app; now left].
Qed.

Lemma clearItems_represents (c : CppApp.VulnerableContainer)
    (held : list string) :
  represents c held ->
  exists c', CppApp.clearItems c = SRun [] (Ok tt c')
             /\ represents c' []
             /\ CppApp.objects (CppApp.owned c') = [].
Proof.
  intros [M F]. eexists. split; [reflexivity|].
  cbn [CppApp.owned].
  assert (E : CppApp.objects
                (fold_right CppApp.destroy (CppApp.owned c) (CppApp.items c))
              = []).
  { apply destroy_all_objects. eapply Forall_impl; [|exact F].
    simpl. tauto. }
  split; [|exact E].
  unfold represents. cbn [CppApp.items CppApp.owned]. rewrite E.
  split; [reflexivity | constructor].
Qed.

Lemma calls_represents (cs : list CppApp.call)
    (c : CppApp.VulnerableContainer) (held : list string) :
  represents c held ->
  exists c', CppApp.calls cs c = SRun [] (Ok tt c')
             /\ represents c' (replay held cs).
Proof.
  revert c held. induction cs as [|[item|] cs IH]; intros c held R.
  - exists c. split; [reflexivity | exact R].
  - destruct (@addItem_represents c held item R) as [c1 [E1 R1]].
    destruct (IH c1 _ R1) as [c2 [E2 R2]].
    exists c2. split; [|exact R2].
    cbn [CppApp.calls]. unfold sbind. rewrite E1. cbn [sout strace].
    rewrite E2. reflexivity.
  - destruct (@clearItems_represents c held R) as [c1 [E1 [R1 _]]].
    destruct (IH c1 _ R1) as [c2 [E2 R2]].
    exists c2. split; [|exact R2].
    cbn [CppApp.calls]. unfold sbind. rewrite E1. cbn [sout strace].
    rewrite E2. reflexivity.
Qed.

Lemma printFirstItem_represents (c : CppApp.VulnerableContainer)
    (held : list string) :
  represents c held ->
  CppApp.printFirstItem c
  = SRun (match held with
          | [] => []
          | item :: _ => [Stdout (item ++ CppApp.endl)]
          end)
         (Ok tt c).
Proof.
  intros [M _]. unfold CppApp.printFirstItem.
  destruct (CppApp.items c) as [|p ps]; destruct held as [|x xs];
    simpl in M; try discriminate; [reflexivity|].
  injection M as M _. now rewrite M.
Qed.

Lemma new_container_represents : represents CppApp.new_VulnerableContainer [].
Proof. split; [reflexivity | constructor]. Qed.

(** X17.  After any sequence of [addItem] and [clearItems] calls on a new
    container, [printFirstItem] never reads a destroyed string: it prints
    the first item added since the last [clearItems], or nothing when
    there is none; and right after [clearItems] no string is left in the
    store. *)
Theorem container_never_reads_destroyed_item (cs : list CppApp.call) :
  exists c c',
    CppApp.calls cs CppApp.new_VulnerableContainer = SRun [] (Ok tt c)
    /\ CppApp.printFirstItem c
       = SRun (match replay [] cs with
               | [] => []
               | item :: _ => [Stdout (item ++ CppApp.endl)]
               end)
              (Ok tt c)
    /\ CppApp.clearItems c = SRun [] (Ok tt c')
    /\ CppApp.items c' = []
    /\ CppApp.objects (CppApp.owned c') = []
    /\ CppApp.printFirstItem c' = SRun [] (Ok tt c').
Proof.
  destruct (@calls_represents cs _ _ new_container_represents) as [c [E R]].
  destruct (@clearItems_represents c _ R) as [c' [E' [R' O]]].
  exists c, c'. split; [exact E|]. split; [now apply printFirstItem_represents|].
  split; [exact E'|].
  assert (I : CppApp.items c' = []).
  { destruct R' as [M _]. destruct (CppApp.items c'); [reflexivity | discriminate]. }
  split; [exact I|]. split; [exact O|].
  now rewrite (@printFirstItem_represents c' [] R').
Qed.

(** ** Lines and numbers *)

Lemma subject_without_number (payload : string) :
  (forall c rest, payload = String c rest ->
     Libc.isspace c = false /\ Libc.digit c = None
     /\ c <> "-"%char /\ c <> "+"%char) ->
  Libc.subject payload = None.
Proof.
  intros H. destruct payload as [|c rest]; [reflexivity|].
  destruct (H c rest eq_refl) as [W [D [M P]]].
  apply Ascii.eqb_neq in M, P.
  unfold Libc.subject. cbn [Libc.skip_space]. rewrite W, M, P.
  cbn [Libc.digits]. now rewrite D.
Qed.

(** X18.  An [alloc:] line whose payload does not start with a number
    (it is empty, or starts with a character that is no white space, sign
    or digit): main.c takes it for 0 and allocates nothing, main.cpp logs
    the line up to its first NUL and ends on the exception
    invalid_argument that nothing catches. *)
Theorem alloc_without_number
    (e : env) (server : CppApp.WebServer) (payload : string)
    (Hp : ~ In "%"%char (chars payload))
    (Hn : forall c rest, payload = String c rest ->
            Libc.isspace c = false /\ Libc.digit c = None
            /\ c <> "-"%char /\ c <> "+"%char) :
  ((len payload <= 93)%nat ->
   CApp.process_line e ("alloc:" ++ payload)
   = Run (echoed ("alloc:" ++ payload)) (Done tt))
  /\ CppApp.process_line e server ("alloc:" ++ payload)
     = Run [Stdout ("alloc:" ++ Libc.c_str payload); Stdout (String LF "")]
           (Fault (Raise invalid_argument)).
Proof.
  pose proof (subject_without_number Hn) as S. split.
  - intros Hl. rewrite (@alloc_line_handler e payload Hp Hl).
    unfold Libc.atoi. rewrite S, bind_ret.
    change (to_uint 0) with 0. unfold CApp.allocate_memory.
    cbn [Z.ltb Z.compare trace outcome ret]. now rewrite app_nil_r.
  - rewrite (@alloc_line_member e server payload Hp).
    unfold CppApp.stoull. rewrite S. reflexivity.
Qed.

Lemma alloc_without_number_witness :
  CppApp.process_line sample_env CppApp.new_WebServer ("alloc:" ++ "many")
  = Run [Stdout ("alloc:" ++ "many"); Stdout (String LF "")]
        (Fault (Raise invalid_argument))
  /\ CApp.process_line sample_env ("alloc:" ++ "many")
     = Run (echoed ("alloc:" ++ "many")) (Done tt).
Proof.
  assert (Hp : ~ In "%"%char (chars "many")) by (simpl; intuition discriminate).
  assert (Hn : forall c rest, "many" = String c rest ->
                 Libc.isspace c = false /\ Libc.digit c = None
                 /\ c <> "-"%char /\ c <> "+"%char).
  { intros c rest E. injection E as <- _.
    repeat split; try reflexivity; discriminate. }
  destruct (@alloc_without_number sample_env CppApp.new_WebServer
              "many" Hp Hn) as [C P].
  split; [exact P|]. apply C. apply Nat.leb_le. reflexivity.
Defined.

Lemma first_line_of_fgets (room : nat) (s : string) :
  exists rest,
    s = take (Libc.strcspn_lf (Libc.c_str (fst (Libc.fgets_take room s))))
             (Libc.c_str (fst (Libc.fgets_take room s))) ++ rest
    /\ (forall c,
          In c (chars (take (Libc.strcspn_lf
                               (Libc.c_str (fst (Libc.fgets_take room s))))
                            (Libc.c_str (fst (Libc.fgets_take room s))))) ->
          c <> LF /\ c <> NUL)
    /\ (len (take (Libc.strcspn_lf (Libc.c_str (fst (Libc.fgets_take room s))))
                  (Libc.c_str (fst (Libc.fgets_take room s)))) <= room)%nat
    /\ (rest = ""
        \/ (exists r, rest = String LF r)
        \/ (exists r, rest = String NUL r)
        \/ len (take (Libc.strcspn_lf
                        (Libc.c_str (fst (Libc.fgets_take room s))))
                     (Libc.c_str (fst (Libc.fgets_take room s)))) = room).
Proof.
  revert s. induction room as [|room IH]; intros s.
  - exists s. simpl. repeat split; try tauto; try lia;
      try (now right; right; right).
  - destruct s as [|c s].
    + exists "". simpl. repeat split; try tauto; try lia; try (now left).
    + cbn [Libc.fgets_take]. destruct (Ascii.eqb_spec c LF) as [->|N].
      * exists (String LF s). simpl. repeat split; try tauto; try lia;
          try (right; left; now exists s).
      * destruct (IH s) as [rest [E [NL [B T]]]].
        destruct (Libc.fgets_take room s) as [l r]. cbn [fst] in *.
        cbn [Libc.c_str]. destruct (Ascii.eqb_spec c NUL) as [->|M].
        -- exists (String NUL s). simpl. repeat split; try tauto; try lia;
             try (right; right; left; now exists s).
        -- cbn [Libc.strcspn_lf]. apply Ascii.eqb_neq in N. rewrite N.
           apply Ascii.eqb_neq in N.
           cbn [take]. exists rest. split; [simpl; now rewrite <- E|].
           split.
           { simpl. intros d [F|F]; [subst d; now split | now apply NL]. }
           split; [unfold len in *; simpl; lia|].
           destruct T as [T|[T|[T|T]]];
             [now left | now right; left | now right; right; left |].
           right; right; right. unfold len in *. simpl. now rewrite T.
Qed.

(** X19.  main.c works on the first line of its input: the text before
    the first newline or NUL, cut after 1023 characters.  At end of input
    nothing is processed. *)
Theorem interactive_processes_first_line (e : env) (stdin : string)
    (H : stdin <> "") :
  exists line rest,
    stdin = line ++ rest
    /\ (forall c, In c (chars line) -> c <> LF /\ c <> NUL)
    /\ (len line <= 1023)%nat
    /\ (rest = "" \/ (exists r, rest = String LF r)
        \/ (exists r, rest = String NUL r) \/ len line = 1023%nat)
    /\ CApp.interactive e stdin = CApp.process_line e line
    /\ CApp.interactive e "" = ret tt.
Proof.
  destruct (first_line_of_fgets 1023 stdin) as [rest [E [NL [B T]]]].
  eexists. exists rest. split; [exact E|]. split; [exact NL|].
  split; [exact B|]. split; [exact T|]. split; [|reflexivity].
  unfold CApp.interactive, Libc.fgets, CApp.BUFFER_SIZE.
  change (1024 - 1)%nat with 1023%nat.
  destruct stdin as [|c s]; [congruence|].
  now destruct (Libc.fgets_take 1023 (String c s)).
Qed.

Lemma interactive_processes_first_line_witness :
  exists line rest,
    "hi" ++ String LF "there" = line ++ rest
    /\ (forall c, In c (chars line) -> c <> LF /\ c <> NUL)
    /\ (len line <= 1023)%nat
    /\ (rest = "" \/ (exists r, rest = String LF r)
        \/ (exists r, rest = String NUL r) \/ len line = 1023%nat)
    /\ CApp.interactive sample_env ("hi" ++ String LF "there")
       = CApp.process_line sample_env line
    /\ CApp.interactive sample_env "" = ret tt.
Proof.
  apply (@interactive_processes_first_line sample_env
           ("hi" ++ String LF "there")).
  discriminate.
Defined.
